(** * Burnout-risk pipeline: feature engineering and predictor life cycle

    A shallow embedding of [backend/data_generator.py] and
    [backend/ml_model.py].

    Numbers.  The float columns of the data frame are modelled by exact
    rationals ([Q]); integer columns by [Z]; dates by their proleptic
    ordinal ([date.toordinal()]).  Equality of computed numbers is [Qeq]
    ([==]).  Operations that the code takes from libraries and that have no
    exact rational counterpart (the square root behind [rolling().std()],
    the pseudo-random samplers of numpy, the estimators of scikit-learn) are
    parameters of the development, bundled in type classes.  A quotient of
    two columns can be infinite or NaN; the columns computed from one carry
    these values ([npfloat]).  The per-row
    formulas are given a second time in IEEE 754 binary64 arithmetic
    ([Binary64]), where the sample values of the properties are evaluated
    as the interpreter computes them. *)

From stdpp Require Import base option list strings pretty gmap sorting.
From Stdlib Require Import ZArith QArith Qround Lqa Lia PrimFloat Ascii.

Local Open Scope Q_scope.

(** ** numpy helpers *)

(** [a < b] on floats, as a boolean. *)
Definition Qltb (a b : Q) : bool := negb (Qle_bool b a).

(** [np.rint]: round to the nearest integer, ties to the even one. *)
Definition np_rint (x : Q) : Z :=
  let n := Qfloor x in
  let r := x - inject_Z n in
  if Qltb r (1 # 2) then n
  else if Qltb (1 # 2) r then (n + 1)%Z
  else if Z.even n then n else (n + 1)%Z.

(** [np.round(x, decimals)] for [decimals >= 0]: numpy documents it as
    [np.true_divide(np.rint(x * 10**decimals), 10**decimals)].  Here the
    product is the exact one; the binary64 product of the code can lie on
    either side of a decimal tie. *)
Definition np_round (x : Q) (decimals : nat) : Q :=
  let f := inject_Z (10 ^ Z.of_nat decimals) in
  inject_Z (np_rint (x * f)) / f.

(** [np.where(cond, x, y)], one element.  Both [x] and [y] are computed
    before the selection, for every row; the one that is not selected is
    dropped, whatever it is. *)
Definition np_where {A} (cond : bool) (x y : A) : A :=
  if cond then x else y.

(** [np.select(condlist, choicelist, default)], one element: the choice of
    the first condition that holds, the default when none does. *)
Fixpoint np_select {A} (condlist : list bool) (choicelist : list A)
    (default : A) : A :=
  match condlist, choicelist with
  | c :: cs, x :: xs => if c then x else np_select cs xs default
  | _, _ => default
  end.

(** Python's [int(x)] on a float: truncation towards zero. *)
Definition py_int (x : Q) : Z :=
  if Qle_bool 0 x then Qfloor x else Qceiling x.

Definition py_max (a b : Q) : Q := if Qltb a b then b else a.
Definition py_min (a b : Q) : Q := if Qltb b a then b else a.

Definition Qsum (l : list Q) : Q := foldr Qplus 0 l.

(** The one numeric library function without a rational counterpart. *)
Class NumPy := { np_sqrt : Q -> Q }.

(** ** Floats that may be infinite or NaN

    The division of one float column by another does not raise on a zero
    divisor: numpy gives an infinity, or NaN for 0/0, and a warning.  These
    values then go through the arithmetic as IEEE 754 has it. *)
Inductive npfloat :=
  | FNum (q : Q)
  | FInf (negative : bool)
  | FNaN.

(** [a / b], one element. *)
Definition np_divide (a b : Q) : npfloat :=
  if Qeq_bool b 0 then
    if Qeq_bool a 0 then FNaN else FInf (Qltb a 0)
  else FNum (a / b).

Definition np_negative (x : npfloat) : npfloat :=
  match x with
  | FNum a => FNum (- a)
  | FInf s => FInf (negb s)
  | FNaN => FNaN
  end.

Definition np_add (x y : npfloat) : npfloat :=
  match x, y with
  | FNum a, FNum b => FNum (a + b)
  | FNaN, _ | _, FNaN => FNaN
  | FInf s, FInf s' => if Bool.eqb s s' then FInf s else FNaN
  | FInf s, FNum _ | FNum _, FInf s => FInf s
  end.

Definition np_subtract (x y : npfloat) : npfloat := np_add x (np_negative y).

Definition np_multiply (x y : npfloat) : npfloat :=
  match x, y with
  | FNum a, FNum b => FNum (a * b)
  | FNaN, _ | _, FNaN => FNaN
  | FInf s, FInf s' => FInf (xorb s s')
  | FInf s, FNum b | FNum b, FInf s =>
      if Qeq_bool b 0 then FNaN else FInf (xorb s (Qltb b 0))
  end.

(** [np.round] leaves infinities and NaN as they are. *)
Definition np_round_float (x : npfloat) (decimals : nat) : npfloat :=
  match x with
  | FNum a => FNum (np_round a decimals)
  | _ => x
  end.

(** ** The table: one record per row *)

(** A row of [features_df] after the merge of the daily table with the
    employee table. *)
Record Raw := mkRaw {
  employee_id : string;
  date : Z;
  total_active_hours : Q;
  num_meetings : Z;
  focus_hours : Q;
  sleep_hours : Q;
  stress_score : Q;
  steps : Z;
  after_hours_work : Q;
  name : string;
  department : string;
  role : string;
  tenure_years : Q;
  skill_level : Q
}.

(** The row once the three per-row indices are attached
    ([engineer_features], up to the sort). *)
Record Indexed := mkIndexed {
  raw : Raw;
  workload_index : Q;
  wellness_index : Q;
  meeting_burden : npfloat
}.

(** The fully engineered row.  The three rolling columns are filled by an
    index-aligned assignment, which can leave NaN: [None]. *)
Record Row := mkRow {
  base : Indexed;
  avg_workload_7d : option Q;
  avg_wellness_7d : option Q;
  sleep_variance_7d : option Q;
  burnout_risk_index : Q;
  burnout_category : string;
  productivity_index : npfloat
}.

Definition row_employee (r : Row) : string := employee_id (raw (base r)).
Definition row_date (r : Row) : Z := date (raw (base r)).

(** ** [engineer_features]: the per-row columns *)

Definition workload_index_of (r : Raw) : Q :=
  np_round (total_active_hours r * 0.4
            + inject_Z (num_meetings r) * 0.3
            + after_hours_work r * 0.3) 2.

Definition wellness_index_of (r : Raw) : Q :=
  np_round (np_where (Qle_bool 7 (sleep_hours r)) 1.0 (sleep_hours r / 7) * 0.5
            + (1 - stress_score r) * 0.5) 2.

Definition meeting_burden_of (r : Raw) : npfloat :=
  np_round_float
    (np_where (Qltb 0 (total_active_hours r))
              (np_divide (inject_Z (num_meetings r) * 0.5) (total_active_hours r))
              (FNum 0)) 2.

Definition index_row (r : Raw) : Indexed :=
  {| raw := r;
     workload_index := workload_index_of r;
     wellness_index := wellness_index_of r;
     meeting_burden := meeting_burden_of r |}.

(** [x > c] on a float that may be NaN: false on NaN. *)
Definition nan_gt (x : option Q) (c : Q) : bool :=
  match x with Some v => Qltb c v | None => false end.

Definition burnout_risk_index_of (workload wellness : Q)
    (avg_workload : option Q) : Q :=
  np_round (np_select
              [ Qltb 8 workload && Qltb wellness 0.5;
                Qltb 7 workload && Qltb wellness 0.6;
                nan_gt avg_workload 7 ]
              [ 0.9; 0.75; 0.65 ]
              (workload / 10 * 0.4 + (1 - wellness) * 0.6)) 2.

Definition burnout_category_of (risk : Q) : string :=
  np_select [ Qle_bool 0.7 risk; Qle_bool 0.5 risk ]
            [ "High"; "Medium" ]%string
            "Low"%string.

Definition productivity_index_of (r : Indexed) : npfloat :=
  np_round_float
    (np_add
       (np_add
          (np_multiply
             (np_where (Qltb 0 (total_active_hours (raw r)))
                       (np_divide (focus_hours (raw r)) (total_active_hours (raw r)))
                       (FNum 0))
             (FNum 0.5))
          (FNum (skill_level (raw r) * 0.3)))
       (np_multiply (np_subtract (FNum 1) (meeting_burden r)) (FNum 0.2))) 2.

(** ** The per-row formulas in binary64 *)

Module Binary64.
Local Open Scope float_scope.
(* A decimal literal denotes the double closest to it, as in Python. *)
Local Set Warnings "-inexact-float".

(** [np.rint] on a double of magnitude below 2^51: adding and removing
    2^52 rounds to the nearest integer, ties to even, because binary64
    addition rounds that way. *)
Definition rint (x : float) : float :=
  if 0 <=? x then (x + 0x1p52) - 0x1p52 else (x - 0x1p52) + 0x1p52.

(** [np.round(x, 2)]. *)
Definition round2 (x : float) : float := rint (x * 100) / 100.

Definition workload_index_of (hours meetings after : float) : float :=
  round2 (hours * 0.4 + meetings * 0.3
          + after * 0.3).

Definition wellness_index_of (sleep stress : float) : float :=
  round2 ((if 7 <=? sleep then 1 else sleep / 7) * 0.5 + (1 - stress) * 0.5).

Definition meeting_burden_of (hours meetings : float) : float :=
  round2 (if 0 <? hours then meetings * 0.5 / hours else 0).

Definition burnout_risk_index_of (workload wellness avg_workload : float)
    : float :=
  round2 (if (8 <? workload) && (wellness <? 0.5) then 0.9
          else if (7 <? workload) && (wellness <? 0.6) then 0.75
          else if 7 <? avg_workload then 0.65
          else workload / 10 * 0.4
               + (1 - wellness) * 0.6).
End Binary64.

(** ** pandas helpers: stable sort, group-by, rolling windows *)

Section Sorting.
Context {A : Type} (leb : A -> A -> bool).

Fixpoint insert_sorted (x : A) (l : list A) : list A :=
  match l with
  | [] => [x]
  | y :: l' => if leb x y then x :: l else y :: insert_sorted x l'
  end.

(** A stable sort: among rows with equal keys the input order is kept,
    as [sort_values] on several columns does. *)
Definition stable_sort (l : list A) : list A := foldr insert_sorted [] l.
End Sorting.

(** A data frame whose rows carry their index label. *)
Abbreviation Frame A := (list (nat * A)) (only parsing).

(** The default [RangeIndex] of a freshly built frame. *)
Definition range_index {A} (l : list A) : Frame A := zip (seq 0 (length l)) l.

(** A series: index label and value; [None] is NaN. *)
Abbreviation Series := (list (nat * option Q)) (only parsing).

(** Order of the sort key [(employee_id, date)]. *)
Definition key_leb (a b : Indexed) : bool :=
  match String.compare (employee_id (raw a)) (employee_id (raw b)) with
  | Lt => true
  | Eq => (date (raw a) <=? date (raw b))%Z
  | Gt => false
  end.

(** [df.sort_values(by=['employee_id', 'date'])]: rows move with their
    labels. *)
Definition sort_values (df : Frame Indexed) : Frame Indexed :=
  stable_sort (fun a b => key_leb a.2 b.2) df.

(** [df.groupby('employee_id')]: one group per distinct key, keys in
    ascending order, each group holding its rows in frame order. *)
Definition groupby (df : Frame Indexed) : list (string * Frame Indexed) :=
  (fun k => (k, filter (fun p => employee_id (raw p.2) = k) df))
    <$> stable_sort String.leb
          (remove_dups ((fun p => employee_id (raw p.2)) <$> df)).

(** The window of [rolling(window=w)] that ends at position [i]. *)
Definition window {A} (w i : nat) (l : list A) : list A :=
  drop (i + 1 - w) (take (i + 1) l).

Definition rolling (w : nat) (agg : list Q -> option Q) (l : list Q)
    : list (option Q) :=
  (fun i => agg (window w i l)) <$> seq 0 (length l).

(** [.mean()] with [min_periods=1]: defined as soon as the window holds one
    observation. *)
Definition mean (l : list Q) : option Q :=
  match l with
  | [] => None
  | _ => Some (Qsum l / inject_Z (Z.of_nat (length l)))
  end.

(** [.std()], the sample standard deviation ([ddof=1]): NaN on fewer than
    two observations. *)
Definition std `{!NumPy} (l : list Q) : option Q :=
  match l with
  | [] | [_] => None
  | _ =>
      let n := inject_Z (Z.of_nat (length l)) in
      let m := Qsum l / n in
      Some (np_sqrt (Qsum ((fun x => (x - m) * (x - m)) <$> l) / (n - 1)))
  end.

(** [df.groupby('employee_id')[col].rolling(window=7, min_periods=1).agg()]
    followed by [.reset_index(level=0, drop=True)]: the group results one
    after the other, each value under the label of its row. *)
Definition rolling_7d (col : Indexed -> Q) (agg : list Q -> option Q)
    (df : Frame Indexed) : Series :=
  mjoin ((fun g => zip (g.2.*1) (rolling 7 agg (col <$> g.2.*2)))
           <$> groupby df).

(** [.fillna(0)]. *)
Definition fillna (v : Q) (s : Series) : Series :=
  prod_map id (fun x => Some (default v x)) <$> s.

(** Reading a series at a label, as the index-aligned assignment
    [df[c] = series] does: a label the series lacks gives NaN. *)
Definition at_label (s : Series) (i : nat) : option Q :=
  mjoin ((list_to_map s : gmap nat (option Q)) !! i).

(** ** [engineer_features] *)

Section Engineer.
Context `{!NumPy}.

(** The columns assigned after the sort, for one row, from what the
    three rolling series hold at the label of that row: the series are
    rounded, the later columns are computed from the earlier ones. *)
Definition make_row (avg_w avg_l var_s : option Q) (r : Indexed) : Row :=
  let aw := (fun v => np_round v 2) <$> avg_w in
  let risk := burnout_risk_index_of (workload_index r) (wellness_index r) aw in
  {| base := r;
     avg_workload_7d := aw;
     avg_wellness_7d := (fun v => np_round v 2) <$> avg_l;
     sleep_variance_7d := (fun v => np_round v 2) <$> var_s;
     burnout_risk_index := risk;
     burnout_category := burnout_category_of risk;
     productivity_index := productivity_index_of r |}.

Definition finish_row (avg_w avg_l var_s : Series) (p : nat * Indexed) : Row :=
  make_row (at_label avg_w p.1) (at_label avg_l p.1) (at_label var_s p.1) p.2.

(** [engineer_features(df)], on a frame with its index labels. *)
Definition engineer_frame (df : Frame Raw) : Frame Row :=
  let df1 := prod_map id index_row <$> df in
  let df2 := sort_values df1 in
  let avg_w := rolling_7d workload_index mean df2 in
  let avg_l := rolling_7d wellness_index mean df2 in
  let var_s := fillna 0 (rolling_7d (fun r => sleep_hours (raw r)) std df2) in
  (fun p => (p.1, finish_row avg_w avg_l var_s p)) <$> df2.

(** [engineer_features] on the merged table, whose index is the default
    [RangeIndex]; the result lists the rows in their final order. *)
Definition engineer_features (df : list Raw) : list Row :=
  (engineer_frame (range_index df)).*2.

(** What the pipeline computes for the rows of one employee, given in
    their sorted order: every window is taken inside this list. *)
Definition employee_rows (g : list Indexed) : list Row :=
  imap (fun p r =>
          make_row (mean (window 7 p (workload_index <$> g)))
                   (mean (window 7 p (wellness_index <$> g)))
                   (Some (default 0 (std (window 7 p
                                      ((fun r => sleep_hours (raw r)) <$> g)))))
                   r) g.
End Engineer.

(** ** Exceptions and the state-and-exception monad *)

(** The exceptions the two modules can end with, by the place that raises
    them; [SklearnError] wraps whatever a scikit-learn call raises. *)
Inductive exn :=
  | ValueError (msg : string)
  | KeyError (key : string)
  | AttributeError
  | TypeError
  | IndexError
  | NotFittedError
  | SklearnError (msg : string).

Inductive result (A : Type) :=
  | Ok (a : A)
  | Raise (e : exn).
Arguments Ok {A} a.
Arguments Raise {A} e.

(** A computation over a mutable state [S] that may raise.  As in Python,
    an exception does not undo the writes made before it. *)
Definition M (S A : Type) : Type := S -> S * result A.

Global Instance M_ret {S} : MRet (M S) := fun A a s => (s, Ok a).
Global Instance M_bind {S} : MBind (M S) := fun A B f m s =>
  match m s with
  | (s', Ok a) => f a s'
  | (s', Raise e) => (s', Raise e)
  end.

Global Instance M_fmap {S} : FMap (M S) := fun A B f m s =>
  match m s with
  | (s', Ok a) => (s', Ok (f a))
  | (s', Raise e) => (s', Raise e)
  end.

Definition get {S} : M S S := fun s => (s, Ok s).
Definition put {S} (s : S) : M S unit := fun _ => (s, Ok tt).
Definition modify {S} (f : S -> S) : M S unit := fun s => (f s, Ok tt).
Definition raise {S A} (e : exn) : M S A := fun s => (s, Raise e).
Definition lift {S A} (r : result A) : M S A := fun s => (s, r).

Fixpoint for_each {S A B} (f : A -> M S B) (l : list A) : M S (list B) :=
  match l with
  | [] => mret []
  | x :: l' => y ← f x; ys ← for_each f l'; mret (y :: ys)
  end.

(** ** [generate_employee_data] *)

(** numpy's global random generator: its state, [np.random.seed], and the
    samplers the generator calls.  Each sampler returns the draw and the
    next state. *)
Class RandomState := {
  rng : Type;
  seed : Z -> rng;
  choice : list string -> rng -> string * rng;
  uniform : Q -> Q -> rng -> Q * rng;
  normal : Q -> Q -> rng -> Q * rng;
  poisson : Q -> rng -> Z * rng;
  beta : Q -> Q -> rng -> Q * rng
}.

Record Employee := mkEmployee {
  emp_employee_id : string;
  emp_name : string;
  emp_department : string;
  emp_role : string;
  emp_tenure_years : Q;
  emp_skill_level : Q
}.

Record Daily := mkDaily {
  day_employee_id : string;
  day_date : Z;
  day_total_active_hours : Q;
  day_num_meetings : Z;
  day_focus_hours : Q;
  day_sleep_hours : Q;
  day_stress_score : Q;
  day_steps : Z;
  day_after_hours_work : Q
}.

(** [f'{i:03d}']: decimal, padded with zeros to three characters. *)
Definition pad3 (i : nat) : string :=
  let s := pretty i in
  String.concat "" (replicate (3 - String.length s) "0"%string) +:+ s.

Definition departments : list string :=
  ["Engineering"; "Sales"; "Marketing"; "HR"; "Operations"]%string.

(** [date.weekday()]: Monday is 0; ordinal 1 is a Monday. *)
Definition weekday (d : Z) : Z := ((d + 6) mod 7)%Z.

(** [daily_df.merge(employees_df, on='employee_id')]: an inner join that
    keeps the order of the left rows.  A frame built from an empty list of
    records has no columns, so the join key is missing. *)
Definition merge (daily : list Daily) (employees : list Employee)
    : result (list Raw) :=
  match daily, employees with
  | [], _ | _, [] => Raise (KeyError "employee_id")
  | _, _ =>
    Ok (d ← daily;
        e ← filter (fun e => emp_employee_id e = day_employee_id d) employees;
        [ {| employee_id := day_employee_id d;
             date := day_date d;
             total_active_hours := day_total_active_hours d;
             num_meetings := day_num_meetings d;
             focus_hours := day_focus_hours d;
             sleep_hours := day_sleep_hours d;
             stress_score := day_stress_score d;
             steps := day_steps d;
             after_hours_work := day_after_hours_work d;
             name := emp_name e;
             department := emp_department e;
             role := emp_role e;
             tenure_years := emp_tenure_years e;
             skill_level := emp_skill_level e |} ])
  end.

Section Generate.
Context `{!NumPy} `{!RandomState}.

Definition draw {A} (f : rng -> A * rng) : M rng A :=
  fun s => let (a, s') := f s in (s', Ok a).

Definition make_employee (i : nat) : M rng Employee :=
  dept ← draw (choice departments);
  rl ← draw (choice ["Junior"; "Mid"; "Senior"; "Lead"]%string);
  tenure ← draw (uniform 0.5 8);
  skill ← draw (uniform 0.6 1.0);
  mret {| emp_employee_id := "EMP" +:+ pad3 i;
          emp_name := "Employee_" +:+ pretty i;
          emp_department := dept;
          emp_role := rl;
          emp_tenure_years := np_round tenure 1;
          emp_skill_level := np_round skill 2 |}.

(** The body of the inner loop: one row on a weekday, nothing (and no
    draw) otherwise. *)
Definition make_day (start_date : Z) (emp : Employee) (day : nat)
    : M rng (list Daily) :=
  let date := (start_date + Z.of_nat day)%Z in
  if (weekday date <? 5)%Z then
    base_workload ← draw (normal 6 2);
    meetings ← draw (poisson 5);
    sleep ← (fun x => py_max 4 (py_min 10 x)) <$> draw (normal 7 1);
    stress ← (fun x => py_min 1 (py_max 0 x)) <$> draw (beta 2 5);
    steps_ ← py_int <$> draw (normal 7000 2000);
    mret [ {| day_employee_id := emp_employee_id emp;
              day_date := date;
              day_total_active_hours :=
                np_round (py_max 4 (py_min 14 base_workload)) 2;
              day_num_meetings := meetings;
              day_focus_hours :=
                np_round (py_max 1 (base_workload - inject_Z meetings * 0.5)) 2;
              day_sleep_hours := np_round sleep 1;
              day_stress_score := np_round stress 2;
              day_steps := steps_;
              day_after_hours_work := np_round (py_max 0 (base_workload - 8)) 1 |} ]
  else mret [].

(** [generate_employee_data(num_employees, num_days)].  [now] is the date
    that [datetime.now()] reads; the state is numpy's global generator. *)
Definition generate_employee_data (num_employees num_days : nat) (now : Z)
    : M rng (list Row) :=
  put (seed 42);;
  employees ← for_each make_employee (seq 0 num_employees);
  let start_date := (now - Z.of_nat num_days)%Z in
  daily_data ← for_each (fun emp =>
                  days ← for_each (make_day start_date emp) (seq 0 num_days);
                  mret (concat days))
                employees;
  features_df ← lift (merge (concat daily_data) employees);
  mret (engineer_features features_df).
End Generate.

(** ** Data frames as the predictor sees them *)

(** A cell: a number, a string, or NaN. *)
Inductive Value :=
  | VNum (q : Q)
  | VStr (s : string)
  | VNaN.

(** A data frame with any set of columns: the columns in order, each with
    its name.  Column names are distinct. *)
Abbreviation DataFrame := (list (string * list Value)) (only parsing).

Definition nrows (df : DataFrame) : nat :=
  match df with
  | [] => 0
  | c :: _ => length c.2
  end.

Fixpoint find_column (df : DataFrame) (col : string) : option (list Value) :=
  match df with
  | [] => None
  | c :: df' => if String.eqb c.1 col then Some c.2 else find_column df' col
  end.

(** [df[col]]. *)
Definition getitem (df : DataFrame) (col : string) : result (list Value) :=
  match find_column df col with
  | Some c => Ok c
  | None => Raise (KeyError col)
  end.

(** [df[cols]] for a list of names: the selected columns, in the order
    asked for. *)
Fixpoint getitems (df : DataFrame) (cols : list string)
    : result (list (list Value)) :=
  match cols with
  | [] => Ok []
  | col :: cols' =>
      match getitem df col, getitems df cols' with
      | Ok c, Ok cs => Ok (c :: cs)
      | Raise e, _ => Raise e
      | _, Raise e => Raise e
      end
  end.

Fixpoint replace_column (df : DataFrame) (col : string) (values : list Value)
    : DataFrame :=
  match df with
  | [] => [(col, values)]
  | c :: df' =>
      if String.eqb c.1 col then (col, values) :: df'
      else c :: replace_column df' col values
  end.

(** [df[col] = values]: the column is overwritten where it stands when the
    frame has it, and appended otherwise.  Values of the wrong length are
    refused. *)
Definition setitem (df : DataFrame) (col : string) (values : list Value)
    : result DataFrame :=
  match df with
  | _ :: _ =>
      if Nat.eqb (length values) (nrows df) then Ok (replace_column df col values)
      else Raise (ValueError "Length of values does not match length of index")
  | [] => Ok [(col, values)]
  end.

Definition is_nan (v : Value) : bool :=
  match v with VNaN => true | _ => false end.

Definition select_rows {A} (keep : list bool) (c : list A) : list A :=
  (filter (fun p => p.1 = true) (zip keep c)).*2.

(** [df.dropna(subset=[col]).copy()]. *)
Definition dropna (df : DataFrame) (col : string) : result DataFrame :=
  match getitem df col with
  | Ok c =>
      let keep := (fun v => negb (is_nan v)) <$> c in
      Ok (prod_map id (select_rows keep) <$> df)
  | Raise e => Raise e
  end.

Fixpoint index_of {A} (p : A -> bool) (l : list A) : option nat :=
  match l with
  | [] => None
  | x :: l' => if p x then Some 0%nat else S <$> index_of p l'
  end.

(** ** scikit-learn *)

(** The estimators of scikit-learn, by what the predictor calls on them.
    A call returns its value ([inr]) or the message of the exception it
    raises ([inl]).  Matrices are lists of columns. *)
Class Sklearn := {
  LabelEncoder : Type;
  StandardScaler : Type;
  RandomForestClassifier : Type;
  (** [LabelEncoder().fit_transform(y)]: the fitted encoder, the codes *)
  le_fit_transform : list Value -> string + (LabelEncoder * list Z);
  classes_ : LabelEncoder -> list Value;
  le_inverse_transform : LabelEncoder -> list Z -> string + list Value;
  (** [train_test_split(X, y, test_size=0.2, random_state=42, stratify=y)] *)
  train_test_split :
    list (list Value) -> list Value ->
    string + (list (list Value) * list (list Value) * list Value * list Value);
  (** [StandardScaler().fit_transform(X)] and [scaler.transform(X)] *)
  ss_fit_transform : list (list Value) -> string + (StandardScaler * list (list Q));
  ss_transform : StandardScaler -> list (list Value) -> string + list (list Q);
  (** [RandomForestClassifier(n_estimators, max_depth, random_state).fit(X, y)] *)
  rf_fit : nat -> nat -> Z -> list (list Q) -> list Value
           -> string + RandomForestClassifier;
  rf_predict : RandomForestClassifier -> list (list Q) -> string + list Z;
  (** one row of class probabilities per input row *)
  rf_predict_proba : RandomForestClassifier -> list (list Q) -> string + list (list Q)
}.

(** An estimator object: as constructed, or after a [fit] that returned. *)
Inductive estimator (A : Type) :=
  | Unfitted
  | Fitted (a : A).
Arguments Unfitted {A}.
Arguments Fitted {A} a.

Definition sk {S A} (r : string + A) : M S A :=
  match r with
  | inr a => mret a
  | inl msg => raise (SklearnError msg)
  end.

(** Reaching into an attribute that holds an estimator: [None] has no such
    method, an estimator that was not fitted refuses. *)
Definition fitted {S A} (o : option (estimator A)) : M S A :=
  match o with
  | None => raise AttributeError
  | Some Unfitted => raise NotFittedError
  | Some (Fitted a) => mret a
  end.

(** ** [BurnoutPredictor] *)

Module BurnoutPredictor.
Section Methods.
Context `{!Sklearn}.

(** The attributes of a predictor; [None] is Python's [None]. *)
Record Predictor := mkPredictor {
  model : option (estimator RandomForestClassifier);
  scaler : option (estimator StandardScaler);
  label_encoder : option (estimator LabelEncoder);
  feature_cols : list string
}.

Definition set_model (v : option (estimator RandomForestClassifier))
    (self : Predictor) : Predictor :=
  {| model := v; scaler := scaler self;
     label_encoder := label_encoder self; feature_cols := feature_cols self |}.
Definition set_scaler (v : option (estimator StandardScaler))
    (self : Predictor) : Predictor :=
  {| model := model self; scaler := v;
     label_encoder := label_encoder self; feature_cols := feature_cols self |}.
Definition set_label_encoder (v : option (estimator LabelEncoder))
    (self : Predictor) : Predictor :=
  {| model := model self; scaler := scaler self;
     label_encoder := v; feature_cols := feature_cols self |}.
Definition set_feature_cols (v : list string) (self : Predictor) : Predictor :=
  {| model := model self; scaler := scaler self;
     label_encoder := label_encoder self; feature_cols := v |}.

(** [__init__]. *)
Definition init : Predictor :=
  {| model := None;
     scaler := None;
     label_encoder := None;
     feature_cols :=
       [ "workload_index"; "wellness_index"; "meeting_burden";
         "num_meetings"; "focus_hours"; "sleep_hours"; "stress_score";
         "after_hours_work"; "avg_workload_7d"; "avg_wellness_7d";
         "sleep_variance_7d"; "tenure_years"; "skill_level" ]%string |}.

(** [train(self, features_df)]; the state is [self].  An estimator is
    assigned to its attribute as constructed and fitted in place by the
    call that follows. *)
Definition train (features_df : DataFrame) : M Predictor unit :=
  training_df ← lift (dropna features_df "avg_workload_7d");
  modify (set_label_encoder (Some Unfitted));;
  categories ← lift (getitem training_df "burnout_category");
  fit ← sk (le_fit_transform categories);
  modify (set_label_encoder (Some (Fitted fit.1)));;
  training_df ← lift (setitem training_df "label"
                        ((fun c => VNum (inject_Z c)) <$> fit.2));
  self ← get;
  X ← lift (getitems training_df (feature_cols self));
  y ← lift (getitem training_df "label");
  split ← sk (train_test_split X y);
  let '(X_train, X_test, y_train, y_test) := split in
  modify (set_scaler (Some Unfitted));;
  fit ← sk (ss_fit_transform X_train);
  modify (set_scaler (Some (Fitted fit.1)));;
  let X_train_scaled := fit.2 in
  modify (set_model (Some Unfitted));;
  forest ← sk (rf_fit 50 8 42 X_train_scaled y_train);
  modify (set_model (Some (Fitted forest))).

(** The objects a reference can point to: the data frames. *)
Abbreviation Heap := (gmap nat DataFrame) (only parsing).

(** The object behind a reference; a name bound to no frame is not
    subscriptable. *)
Definition deref (l : nat) : M Heap DataFrame := fun h =>
  match h !! l with
  | Some df => (h, Ok df)
  | None => (h, Raise TypeError)
  end.

(** [features_df[col] = values], on the object behind the reference. *)
Definition assign (l : nat) (col : string) (values : list Value) : M Heap unit :=
  df ← deref l;
  df' ← lift (setitem df col values);
  modify (fun h : Heap => <[l := df']> h).

Definition is_high (v : Value) : bool :=
  match v with VStr s => String.eqb s "High" | _ => false end.

(** [predictions_proba[:, i]]. *)
Definition proba_column (i : nat) (proba : list (list Q)) : result (list Q) :=
  match mapM (fun row : list Q => row !! i) proba with
  | Some c => Ok c
  | None => Raise IndexError
  end.

(** [predict(self, features_df)]; [features_df] is a reference to the
    caller's frame, the state is the heap, the value is the reference the
    method returns. *)
Definition predict (self : Predictor) (features_df : nat) : M Heap nat :=
  match model self with
  | None => raise (ValueError "Model not trained yet")
  | Some _ =>
      df ← deref features_df;
      X ← lift (getitems df (feature_cols self));
      fitted_scaler ← fitted (scaler self);
      X_scaled ← sk (ss_transform fitted_scaler X);
      forest ← fitted (model self);
      predictions ← sk (rf_predict forest X_scaled);
      predictions_proba ← sk (rf_predict_proba forest X_scaled);
      encoder ← fitted (label_encoder self);
      categories ← sk (le_inverse_transform encoder predictions);
      assign features_df "prediction_category" categories;;
      match index_of is_high (classes_ encoder) with
      | Some high_class_index =>
          column ← lift (proba_column high_class_index predictions_proba);
          assign features_df "prediction_proba_high" (VNum <$> column)
      | None =>
          df ← deref features_df;
          assign features_df "prediction_proba_high" (replicate (nrows df) (VNum 0.0))
      end;;
      mret features_df
  end.

(** What [pickle] stores: a dictionary from names to objects. *)
Inductive PyObj :=
  | PyNone
  | PyForest (e : estimator RandomForestClassifier)
  | PyScaler (e : estimator StandardScaler)
  | PyEncoder (e : estimator LabelEncoder)
  | PyList (l : list string).

Abbreviation FileSystem := (gmap string (gmap string PyObj)) (only parsing).

Definition obj_of {A} (f : estimator A -> PyObj) (o : option (estimator A)) : PyObj :=
  match o with Some e => f e | None => PyNone end.

(** [save(self, filepath)]; the state is the file system. *)
Definition save (self : Predictor) (filepath : string) : M FileSystem unit :=
  modify (fun fs : FileSystem =>
    <[filepath :=
        <["model" := obj_of PyForest (model self)]>
        (<["scaler" := obj_of PyScaler (scaler self)]>
        (<["label_encoder" := obj_of PyEncoder (label_encoder self)]>
        (<["feature_cols" := PyList (feature_cols self)]> ∅)))]> fs).

Definition entry (data : gmap string PyObj) (key : string) : result PyObj :=
  match data !! key with
  | Some o => Ok o
  | None => Raise (KeyError key)
  end.

(** The attributes are typed here; an object of another kind, which only
    a file not written by [save] can hold, is refused. *)
Definition as_forest (o : PyObj) : result (option (estimator RandomForestClassifier)) :=
  match o with PyNone => Ok None | PyForest e => Ok (Some e) | _ => Raise TypeError end.
Definition as_scaler (o : PyObj) : result (option (estimator StandardScaler)) :=
  match o with PyNone => Ok None | PyScaler e => Ok (Some e) | _ => Raise TypeError end.
Definition as_encoder (o : PyObj) : result (option (estimator LabelEncoder)) :=
  match o with PyNone => Ok None | PyEncoder e => Ok (Some e) | _ => Raise TypeError end.
Definition as_list (o : PyObj) : result (list string) :=
  match o with PyList l => Ok l | _ => Raise TypeError end.

Definition and_then {A B} (r : result A) (f : A -> result B) : result B :=
  match r with Ok a => f a | Raise e => Raise e end.

(** [load(self, filepath)] in the file system [fs]; the state is [self]. *)
Definition load (fs : FileSystem) (filepath : string) : M Predictor unit :=
  match fs !! filepath with
  | Some data =>
      m ← lift (and_then (entry data "model") as_forest);
      modify (set_model m);;
      s ← lift (and_then (entry data "scaler") as_scaler);
      modify (set_scaler s);;
      e ← lift (and_then (entry data "label_encoder") as_encoder);
      modify (set_label_encoder e);;
      c ← lift (and_then (entry data "feature_cols") as_list);
      modify (set_feature_cols c)
  | None => mret tt
  end.
End Methods.
End BurnoutPredictor.

Import BurnoutPredictor.

Section Outcomes.
Context `{!Sklearn}.

(** Where a call of [train] can stop, and what [self] holds there. *)
Inductive train_outcome (p : Predictor) : Predictor -> result unit -> Prop :=
  | stopped_before_encoder e :
      train_outcome p p (Raise e)
  | stopped_in_encoder_fit e :
      train_outcome p (set_label_encoder (Some Unfitted) p) (Raise e)
  | stopped_before_scaler le e :
      train_outcome p (set_label_encoder (Some (Fitted le)) p) (Raise e)
  | stopped_in_scaler_fit le e :
      train_outcome p
        (set_scaler (Some Unfitted) (set_label_encoder (Some (Fitted le)) p))
        (Raise e)
  | stopped_in_forest_fit le sc e :
      train_outcome p
        (set_model (Some Unfitted)
           (set_scaler (Some (Fitted sc))
              (set_label_encoder (Some (Fitted le)) p)))
        (Raise e)
  | completed le sc rf :
      train_outcome p
        (set_model (Some (Fitted rf))
           (set_scaler (Some (Fitted sc))
              (set_label_encoder (Some (Fitted le)) p)))
        (Ok tt).

(** A predictor without training: no call of [train] on it has returned,
    and what it has loaded is a path without a file, or a file saved by a
    predictor that is itself without training. *)
Inductive never_trained : Predictor -> Prop :=
  | fresh_predictor : never_trained init
  | failed_train p features_df p' e :
      never_trained p -> train features_df p = (p', Raise e) -> never_trained p'
  | loaded_nothing p fs filepath p' r :
      never_trained p -> fs !! filepath = None ->
      load fs filepath p = (p', r) -> never_trained p'
  | loaded_untrained p q fs filepath p' r :
      never_trained p -> never_trained q ->
      load (save q filepath fs).1 filepath p = (p', r) -> never_trained p'.

(** A predictor on which no call of [train] has returned, whatever it has
    loaded. *)
Inductive no_train_returned : Predictor -> Prop :=
  | new_predictor : no_train_returned init
  | train_raised p features_df p' e :
      no_train_returned p -> train features_df p = (p', Raise e) ->
      no_train_returned p'
  | loaded p fs filepath p' r :
      no_train_returned p -> load fs filepath p = (p', r) ->
      no_train_returned p'.
End Outcomes.

(** The group key of a labelled row. *)
Definition row_key (p : nat * Indexed) : string := employee_id (raw p.2).

(** ** Concrete library instances, for the examples *)

(** A square root correct to three decimals. *)
Definition approx_sqrt : NumPy :=
  {| np_sqrt := fun x => inject_Z (Z.sqrt (Qfloor (x * 1000000))) / 1000 |}.

(** A generator whose state counts the draws and whose samplers return the
    mean of the distribution. *)
Definition mean_rng : RandomState :=
  {| rng := nat;
     seed := fun z => Z.to_nat z;
     choice := fun l s => (default ""%string (l !! (s mod length l)%nat), S s);
     uniform := fun a b s => ((a + b) / 2, S s);
     normal := fun mu sigma s => (mu, S s);
     poisson := fun lam s => (Qfloor lam, S s);
     beta := fun a b s => (a / (a + b), S s) |}.

Definition num_of (v : Value) : Q :=
  match v with VNum q => q | _ => 0 end.

Definition num_matrix (X : list (list Value)) : list (list Q) :=
  (fun c : list Value => num_of <$> c) <$> X.

Definition label_of (v : Value) : option string :=
  match v with VStr s => Some s | _ => None end.

(** [LabelEncoder.fit_transform] on string labels: the classes are the
    distinct labels in ascending order, the code of a label is its
    position among them. *)
Definition encode_labels (y : list Value) : string + (list Value * list Z) :=
  match mapM label_of y with
  | Some labels =>
      let classes := stable_sort String.leb (remove_dups labels) in
      match mapM (fun s => Z.of_nat <$> index_of (String.eqb s) classes) labels with
      | Some codes => inr (VStr <$> classes, codes)
      | None => inl "label without a class"%string
      end
  | None => inl "labels that are not strings"%string
  end.

(** [LabelEncoder.inverse_transform]: a code without a class is refused. *)
Definition decode_labels (classes : list Value) (codes : list Z)
    : string + list Value :=
  match mapM (fun c => if (c <? 0)%Z then None else classes !! Z.to_nat c) codes with
  | Some labels => inr labels
  | None => inl "y contains previously unseen labels"%string
  end.

Definition class_codes (y : list Value) : list Z := (fun v => Qfloor (num_of v)) <$> y.

(** The number of rows of a matrix given by its columns. *)
Definition matrix_rows {A} (X : list (list A)) : nat := length (default [] (head X)).

(** [train_test_split(X, y, test_size=0.2, stratify=y)] without the
    shuffle: the checks of the stratified split (every class has two
    members at least, each part can hold all classes), then the first rows
    for training and the last [ceil(0.2 * n)] rows for testing. *)
Definition checked_split (X : list (list Value)) (y : list Value)
    : string + (list (list Value) * list (list Value) * list Value * list Value) :=
  let codes := class_codes y in
  let classes := remove_dups codes in
  let n := length y in
  let n_test := ((n + 4) / 5)%nat in
  let n_train := (n - n_test)%nat in
  if existsb (fun c => (length (filter (fun c' => c' = c) codes) <? 2)%nat) classes
  then inl "The least populated class in y has only 1 member"%string
  else if (n_test <? length classes)%nat
  then inl "The test_size should be greater or equal to the number of classes"%string
  else if (n_train <? length classes)%nat
  then inl "The train_size should be greater or equal to the number of classes"%string
  else inr (take n_train <$> X, drop n_train <$> X, take n_train y, drop n_train y).

(** Estimators that do as little as possible: an encoder that encodes, a
    split that checks and cuts, no scaling, and a classifier that remembers
    the number of classes it was fitted on and always answers class 0 with
    probability 1. *)
Definition stub_sklearn : Sklearn :=
  {| LabelEncoder := list Value;
     StandardScaler := unit;
     RandomForestClassifier := nat;
     le_fit_transform := encode_labels;
     classes_ := fun le => le;
     le_inverse_transform := decode_labels;
     train_test_split := checked_split;
     ss_fit_transform := fun X => inr (tt, num_matrix X);
     ss_transform := fun _ X => inr (num_matrix X);
     rf_fit := fun _ _ _ _ y => inr (length (remove_dups (class_codes y)));
     rf_predict := fun _ (X : list (list Q)) =>
       inr (replicate (matrix_rows X) 0%Z);
     rf_predict_proba := fun classes (X : list (list Q)) =>
       inr (replicate (matrix_rows X) (1 :: replicate (classes - 1) 0)) |}.

(** One raw row, by employee, date, active hours, meetings and after-hours
    work; eight hours of sleep, no stress. *)
Definition sample_row (e : string) (d : Z) (hours : Q) (meetings : Z)
    (after : Q) : Raw :=
  {| employee_id := e; date := d; total_active_hours := hours;
     num_meetings := meetings; focus_hours := 3; sleep_hours := 8;
     stress_score := 0; steps := 7000; after_hours_work := after;
     name := "Employee_0"; department := "Sales"; role := "Mid";
     tenure_years := 2; skill_level := 0.8 |}.

(** Six light days and one extreme day of one employee, with a row of a
    second employee in between. *)
Definition sample_table : list Raw :=
  [ sample_row "EMP000" 7 14 60 6;
    sample_row "EMP000" 1 4 0 0;
    sample_row "EMP000" 2 4 0 0;
    sample_row "EMP001" 2 9 12 1;
    sample_row "EMP000" 3 4 0 0;
    sample_row "EMP000" 4 4 0 0;
    sample_row "EMP000" 5 4 0 0;
    sample_row "EMP000" 6 4 0 0 ].

(** A frame with the thirteen feature columns, the label column and ten
    rows, five of each of two categories. *)
Definition sample_frame : list (string * list Value) :=
  ((fun c => (c, (fun i => VNum (inject_Z i)) <$> [1; 2; 3; 4; 5; 6; 7; 8; 9; 10]%Z))
     <$> [ "workload_index"; "wellness_index"; "meeting_burden";
           "num_meetings"; "focus_hours"; "sleep_hours"; "stress_score";
           "after_hours_work"; "avg_workload_7d"; "avg_wellness_7d";
           "sleep_variance_7d"; "tenure_years"; "skill_level" ]%string)
  ++ [ ("burnout_category",
        VStr <$> [ "Low"; "High"; "Low"; "High"; "Low";
                   "High"; "Low"; "High"; "Low"; "High" ])%string ].

(** [sample_table] with the row of the second employee moved to the end
    and a third employee added in front. *)
Definition sample_table_shuffled : list Raw :=
  [ sample_row "EMP002" 1 12 9 3;
    sample_row "EMP000" 7 14 60 6;
    sample_row "EMP000" 1 4 0 0;
    sample_row "EMP000" 2 4 0 0;
    sample_row "EMP000" 3 4 0 0;
    sample_row "EMP000" 4 4 0 0;
    sample_row "EMP000" 5 4 0 0;
    sample_row "EMP000" 6 4 0 0;
    sample_row "EMP001" 2 9 12 1 ].

(** The engineered row of the extreme day of [sample_table]. *)
Definition extreme_day : Row :=
  Eval vm_compute in
    default (make_row None None None (index_row (sample_row "" 0 0 0 0)))
            (@engineer_features approx_sqrt sample_table !! 6%nat).

(** A day without active hours, on which three meetings were recorded. *)
Definition idle_table : list Raw := [ sample_row "EMP000" 1 0 3 0 ].

(** The engineered row of that day. *)
Definition idle_day : Row :=
  Eval vm_compute in
    default (make_row None None None (index_row (sample_row "" 0 0 0 0)))
            (@engineer_features approx_sqrt idle_table !! 0%nat).

(** The predictor after one call of [train] on [sample_frame]. *)
Definition sample_predictor : @Predictor stub_sklearn :=
  (@train stub_sklearn sample_frame (@init stub_sklearn)).1.

(** A frame that lacks the label column. *)
Definition unlabelled_frame : list (string * list Value) :=
  [ ("avg_workload_7d", [VNum 1; VNum 2])%string ].

(** [sample_frame] after an earlier scoring left a category column. *)
Definition scored_frame : list (string * list Value) :=
  sample_frame ++ [ ("prediction_category", replicate 10 (VStr "Low"))%string ].

(** ** Helpers for the properties of the generator *)

(** A run of [k] zeros, the padding of [pad3]. *)
Definition zeros (k : nat) : string := String.concat "" (replicate k "0"%string).

(** The row that the merge builds from a daily row and the employee it
    matches. *)
Definition joined (d : Daily) (e : Employee) : Raw :=
  {| employee_id := day_employee_id d;
     date := day_date d;
     total_active_hours := day_total_active_hours d;
     num_meetings := day_num_meetings d;
     focus_hours := day_focus_hours d;
     sleep_hours := day_sleep_hours d;
     stress_score := day_stress_score d;
     steps := day_steps d;
     after_hours_work := day_after_hours_work d;
     name := emp_name e;
     department := emp_department e;
     role := emp_role e;
     tenure_years := emp_tenure_years e;
     skill_level := emp_skill_level e |}.

(** The days of the window [start, start + num_days) that are weekdays,
    as offsets from [start]. *)
Definition weekdays (start : Z) (num_days : nat) : list nat :=
  filter (fun k => (weekday (start + Z.of_nat k) < 5)%Z) (seq 0 num_days).

(** What the clamps of the generator promise for a daily row. *)
Definition day_in_range (d : Daily) : Prop :=
  4 <= day_total_active_hours d <= 14 /\ 1 <= day_focus_hours d /\
  4 <= day_sleep_hours d <= 10 /\ 0 <= day_stress_score d <= 1 /\
  0 <= day_after_hours_work d.

(** The rows of the inner join on [employee_id], left order kept. *)
Definition inner_join (daily : list Daily) (employees : list Employee)
    : list Raw :=
  d ← daily;
  e ← filter (fun e => emp_employee_id e = day_employee_id d) employees;
  [joined d e].

(** ** More samples *)

(** A call of the generator for two employees and seven days on Wednesday
    2024-01-03, with the samplers of [mean_rng]. *)
Definition generated_run : nat * result (list Row) :=
  @generate_employee_data approx_sqrt mean_rng 2 7 738888 0%nat.

(** The table it returns, and the first row of that table. *)
Definition generated_table : list Row :=
  Eval vm_compute in
    match generated_run.2 with Ok t => t | Raise _ => [] end.

Definition generated_day : Row :=
  Eval vm_compute in default idle_day (generated_table !! 0%nat).

(** A table with a NaN in the 7-day workload average, and the same table
    without that row. *)
Definition gappy_frame : list (string * list Value) :=
  [ ("avg_workload_7d", [VNum 1; VNaN; VNum 2]);
    ("burnout_category", [VStr "Low"; VStr "High"; VStr "Low"]) ]%string.

Definition dense_frame : list (string * list Value) :=
  [ ("avg_workload_7d", [VNum 1; VNum 2]);
    ("burnout_category", [VStr "Low"; VStr "Low"]) ]%string.


(** ** The read-only handlers of [backend/app.py]

    The global [employee_data] is the engineered table after [predict] has
    added its two columns.  The handlers below read none of the two, so the
    table is given by its engineered rows, each under its index label.  A
    handler is given by the value it hands to [jsonify]. *)

(** [df.groupby(key)] on a string column: one group per distinct key, keys
    in ascending order, each group with its rows in table order. *)
Definition groupby_rows (key : Row -> string) (df : Frame Row)
    : list (string * Frame Row) :=
  (fun k => (k, filter (fun p => key p.2 = k) df))
    <$> stable_sort String.leb (remove_dups (key <$> df.*2)).

(** [series.idxmax()]: the label of the first occurrence of the largest
    value. *)
Definition idxmax (s : list (nat * Z)) : option nat :=
  fst <$> foldl (fun best p =>
                   match best with
                   | Some b => if (b.2 <? p.2)%Z then Some p else Some b
                   | None => Some p
                   end) None s.

(** [df.loc[labels]]: for each label in turn the rows that carry it; a
    label that no row carries is a [KeyError]. *)
Fixpoint loc (df : Frame Row) (labels : list nat) : result (Frame Row) :=
  match labels with
  | [] => Ok []
  | l :: labels' =>
      match filter (fun p => p.1 = l) df with
      | [] => Raise (KeyError (pretty l))
      | rows =>
          match loc df labels' with
          | Ok rest => Ok (rows ++ rest)
          | Raise e => Raise e
          end
      end
  end.

(** [employee_data.loc[employee_data.groupby('employee_id')['date'].idxmax()]]. *)
Definition latest_data (employee_data : Frame Row) : result (Frame Row) :=
  loc employee_data
      (omap (fun g => idxmax ((fun p => (p.1, row_date p.2)) <$> g.2))
            (groupby_rows row_employee employee_data)).

Definition is_FNaN (x : npfloat) : bool :=
  match x with FNaN => true | _ => false end.

(** [series.mean()] on a column that may hold NaN: NaN is skipped, and the
    mean of nothing is NaN. *)
Definition mean_float (l : list npfloat) : npfloat :=
  let present := filter (fun x => is_FNaN x = false) l in
  match present with
  | [] => FNaN
  | _ =>
      np_multiply (foldr np_add (FNum 0) present)
                  (FNum (1 / inject_Z (Z.of_nat (length present))))
  end.

(** One element of the list that [get_employees] returns. *)
Record EmployeeView := mkEmployeeView {
  view_id : string;
  view_name : string;
  view_dept : string;
  view_burnout : Q;
  view_productivity : npfloat;
  view_wellness : Q;
  view_meetings : Z;
  view_sleep : Q
}.

Definition get_employees (employee_data : Frame Row)
    : result (list EmployeeView) :=
  and_then (latest_data employee_data) (fun latest =>
    Ok ((fun r =>
           {| view_id := row_employee r;
              view_name := name (raw (base r));
              view_dept := department (raw (base r));
              view_burnout := burnout_risk_index r;
              view_productivity := productivity_index r;
              view_wellness := wellness_index (base r);
              view_meetings := num_meetings (raw (base r));
              view_sleep := sleep_hours (raw (base r)) |})
          <$> latest.*2)).

(** The dictionary that [get_summary] returns. *)
Record Summary := mkSummary {
  total_employees : nat;
  avg_burnout_risk : option Q;
  avg_productivity : npfloat;
  avg_wellness : option Q;
  avg_meetings : option Q;
  high_risk_count : nat
}.

Definition get_summary (employee_data : Frame Row) : result Summary :=
  and_then (latest_data employee_data) (fun latest =>
    Ok {| total_employees := length latest;
          avg_burnout_risk := mean (burnout_risk_index <$> latest.*2);
          avg_productivity := mean_float (productivity_index <$> latest.*2);
          avg_wellness := mean ((fun r => wellness_index (base r)) <$> latest.*2);
          avg_meetings :=
            mean ((fun r => inject_Z (num_meetings (raw (base r)))) <$> latest.*2);
          high_risk_count :=
            length (filter (fun r => Qle_bool 0.7 (burnout_risk_index r) = true)
                      latest.*2) |}).

(** One record of the list that [get_departments] returns. *)
Record DepartmentSummary := mkDepartmentSummary {
  dept_department : string;
  dept_employees : nat;
  dept_avg_burnout : option Q;
  dept_avg_productivity : npfloat;
  dept_high_risk : nat
}.

Definition get_departments (employee_data : Frame Row)
    : result (list DepartmentSummary) :=
  and_then (latest_data employee_data) (fun latest =>
    Ok ((fun g =>
           {| dept_department := g.1;
              dept_employees := length g.2;
              dept_avg_burnout := mean (burnout_risk_index <$> g.2.*2);
              dept_avg_productivity := mean_float (productivity_index <$> g.2.*2);
              dept_high_risk :=
                length (filter (fun r => burnout_category r = "High"%string) g.2.*2) |})
          <$> groupby_rows (fun r => department (raw (base r))) latest)).

(** * Properties *)

(** ** Sorting *)

Section SortingFacts.
Context {A : Type} (leb : A -> A -> bool).
Let R (x y : A) : Prop := leb x y = true.

Lemma insert_sorted_perm x l : insert_sorted leb x l ≡ₚ x :: l.
Proof.
  induction l as [|y l IH]; simpl; [done|].
  destruct (leb x y); [done|]. rewrite IH. apply Permutation_swap.
Qed.

Lemma stable_sort_perm l : stable_sort leb l ≡ₚ l.
Proof.
  induction l as [|x l IH]; simpl; [done|].
  unfold stable_sort in *. simpl. by rewrite insert_sorted_perm, IH.
Qed.

Hypothesis leb_total : forall x y, leb x y = true \/ leb y x = true.
Hypothesis leb_trans : forall x y z, leb x y = true -> leb y z = true -> leb x z = true.

Lemma insert_sorted_sorted x l :
  StronglySorted R l -> StronglySorted R (insert_sorted leb x l).
Proof.
  induction l as [|y l IH]; simpl; intros Hs.
  - repeat constructor.
  - apply StronglySorted_cons in Hs as [Hy Hl].
    destruct (leb x y) eqn:Hxy.
    + apply StronglySorted_cons. split.
      * constructor; [done|]. eapply Forall_impl; [exact Hy|].
        intros z Hz. by eapply leb_trans.
      * by apply StronglySorted_cons.
    + apply StronglySorted_cons. split; [|by apply IH].
      rewrite insert_sorted_perm. constructor; [|done].
      destruct (leb_total x y) as [H|H]; [congruence|done].
Qed.

Lemma stable_sort_sorted l : StronglySorted R (stable_sort leb l).
Proof.
  induction l as [|x l IH]; [constructor|].
  by apply insert_sorted_sorted.
Qed.

Context (P : A -> Prop) `{!forall x, Decision (P x)}.

Lemma filter_insert_sorted x l :
  StronglySorted R l ->
  filter P (insert_sorted leb x l) =
    if decide (P x) then insert_sorted leb x (filter P l) else filter P l.
Proof.
  induction l as [|y l IH]; simpl; intros Hs.
  - rewrite filter_cons, filter_nil. by destruct (decide (P x)).
  - apply StronglySorted_cons in Hs as [Hy Hl].
    destruct (leb x y) eqn:Hxy.
    + rewrite filter_cons. destruct (decide (P x)); [|done].
      assert (Forall (R x) (filter P (y :: l))) as Hall.
      { apply Forall_forall. intros z [_ Hz]%list_elem_of_filter.
        apply elem_of_cons in Hz as [->|Hz]; [done|].
        eapply leb_trans; [exact Hxy|]. by eapply Forall_forall in Hy. }
      destruct (filter P (y :: l)) as [|z f]; [done|].
      simpl. apply Forall_cons in Hall as [Hz _]. unfold R in Hz. by rewrite Hz.
    + rewrite !filter_cons, IH by done.
      destruct (decide (P y)), (decide (P x)); simpl; by rewrite ?Hxy.
Qed.

Lemma filter_stable_sort l :
  filter P (stable_sort leb l) = stable_sort leb (filter P l).
Proof.
  induction l as [|x l IH]; [done|].
  unfold stable_sort in *. simpl.
  rewrite filter_insert_sorted by apply stable_sort_sorted.
  rewrite filter_cons. destruct (decide (P x)); simpl; by rewrite IH.
Qed.
End SortingFacts.

Lemma stable_sort_fmap {A B} (f : A -> B) (lebA : A -> A -> bool)
    (lebB : B -> B -> bool) (l : list A) :
  (forall x y, lebA x y = lebB (f x) (f y)) ->
  f <$> stable_sort lebA l = stable_sort lebB (f <$> l).
Proof.
  intros Hf.
  assert (forall x s, f <$> insert_sorted lebA x s
                      = insert_sorted lebB (f x) (f <$> s)) as Hins.
  { intros x s. induction s as [|y s IHs]; csimpl; [done|].
    rewrite <- Hf. destruct (lebA x y); csimpl; [done|]. by rewrite IHs. }
  induction l as [|x l IH]; [done|].
  unfold stable_sort in *. csimpl. by rewrite Hins, IH.
Qed.

Lemma string_compare_refl s : String.compare s s = Eq.
Proof.
  induction s as [|a s IH]; simpl; [done|].
  unfold Ascii.compare. by rewrite N.compare_refl.
Qed.

Lemma string_compare_lt_trans s t u :
  String.compare s t = Lt -> String.compare t u = Lt -> String.compare s u = Lt.
Proof.
  revert t u. induction s as [|a s IH]; intros [|b t] [|c u]; simpl; try done.
  unfold Ascii.compare.
  destruct (N.compare_spec (Ascii.N_of_ascii a) (Ascii.N_of_ascii b)),
           (N.compare_spec (Ascii.N_of_ascii b) (Ascii.N_of_ascii c)),
           (N.compare_spec (Ascii.N_of_ascii a) (Ascii.N_of_ascii c));
    try done; try lia; eauto.
Qed.

Lemma key_leb_total a b : key_leb a b = true \/ key_leb b a = true.
Proof.
  unfold key_leb. rewrite (String.compare_antisym (employee_id (raw b))).
  destruct (String.compare _ _); simpl; auto. lia.
Qed.

Lemma key_leb_trans a b c :
  key_leb a b = true -> key_leb b c = true -> key_leb a c = true.
Proof.
  unfold key_leb.
  destruct (String.compare (employee_id (raw a)) (employee_id (raw b))) eqn:Hab;
    [| |done].
  - apply String.compare_eq_iff in Hab as ->.
    destruct (String.compare _ _); [lia|done|done].
  - destruct (String.compare (employee_id (raw b)) (employee_id (raw c))) eqn:Hbc;
      [| |done].
    + apply String.compare_eq_iff in Hbc as <-. by rewrite Hab.
    + by rewrite (string_compare_lt_trans _ _ _ Hab Hbc).
Qed.

Lemma key_leb_same_employee a b :
  employee_id (raw a) = employee_id (raw b) ->
  key_leb a b = true -> (date (raw a) <= date (raw b))%Z.
Proof.
  unfold key_leb. intros ->. rewrite string_compare_refl. lia.
Qed.


Lemma length_rolling w agg l : length (rolling w agg l) = length l.
Proof. unfold rolling. by rewrite length_fmap, length_seq. Qed.

Lemma lookup_rolling w agg l p :
  (p < length l)%nat -> rolling w agg l !! p = Some (agg (window w p l)).
Proof.
  intros Hp. unfold rolling. rewrite list_lookup_fmap, lookup_seq_lt by done.
  done.
Qed.

Lemma NoDup_group_labels (col : Indexed -> Q) agg (S : Frame Indexed) keys :
  NoDup keys -> NoDup S.*1 ->
  NoDup (mjoin ((fun k => zip (filter (fun p => row_key p = k) S).*1
                   (rolling 7 agg (col <$> (filter (fun p => row_key p = k) S).*2)))
                  <$> keys)).*1.
Proof.
  intros Hk HS. induction keys as [|k keys IH]; csimpl; [constructor|].
  apply NoDup_cons in Hk as [Hk Hks].
  rewrite fmap_app. apply NoDup_app. split_and!; [| |by apply IH].
  - rewrite fst_zip by (by rewrite length_rolling, !length_fmap).
    eapply sublist_NoDup; [exact HS|apply fmap_sublist, sublist_filter].
  - intros i Hi Hi'.
    rewrite fst_zip in Hi by (by rewrite length_rolling, !length_fmap).
    apply list_elem_of_fmap in Hi as [[i1 r1] [-> [Hr1 HS1]%list_elem_of_filter]].
    apply list_elem_of_fmap in Hi' as [[i2 v] [Hi2 Hin]]. simpl in *. subst i2.
    apply list_elem_of_join in Hin as [g [Hg Hgs]].
    apply list_elem_of_fmap in Hgs as [k' [-> Hk']].
    apply elem_of_zip_l in Hg.
    apply list_elem_of_fmap in Hg as [[i2 r2] [Hi2 [Hr2 HS2]%list_elem_of_filter]].
    simpl in *. subst i2.
    assert (r1 = r2) as <-.
    { apply list_elem_of_lookup in HS1 as [n1 Hn1], HS2 as [n2 Hn2].
      assert (n1 = n2) as <-.
      { eapply NoDup_lookup; [exact HS| |]; rewrite list_lookup_fmap.
        - by rewrite Hn1. - by rewrite Hn2. }
      congruence. }
    unfold row_key in *. congruence.
Qed.

Lemma rolling_7d_groups col agg (S : Frame Indexed) :
  rolling_7d col agg S =
  mjoin ((fun k => zip (filter (fun p => row_key p = k) S).*1
            (rolling 7 agg (col <$> (filter (fun p => row_key p = k) S).*2)))
         <$> stable_sort String.leb (remove_dups (row_key <$> S))).
Proof.
  unfold rolling_7d, groupby. by rewrite <- list_fmap_compose.
Qed.

(** The series of a rolling aggregate holds, under the label of a row, the
    aggregate of the window that ends at this row inside its own group. *)
Lemma rolling_7d_lookup col agg (S : Frame Indexed) k p i r :
  NoDup S.*1 ->
  filter (fun q => row_key q = k) S !! p = Some (i, r) ->
  (list_to_map (rolling_7d col agg S) : gmap nat (option Q)) !! i
  = Some (agg (window 7 p (col <$> (filter (fun q => row_key q = k) S).*2))).
Proof.
  intros HS Hp. rewrite rolling_7d_groups.
  apply elem_of_list_to_map_1.
  - apply NoDup_group_labels; [|done].
    rewrite stable_sort_perm. apply NoDup_remove_dups.
  - apply list_elem_of_join. eexists. split; last first.
    + apply list_elem_of_fmap. exists k. split; [reflexivity|].
      rewrite stable_sort_perm. apply elem_of_remove_dups.
      apply list_elem_of_fmap. exists (i, r). split.
      * apply list_elem_of_lookup_2 in Hp.
        by apply list_elem_of_filter in Hp as [-> _].
      * apply list_elem_of_lookup_2 in Hp.
        by apply list_elem_of_filter in Hp as [_ ?].
    + cbv beta. apply list_elem_of_lookup. exists p. apply lookup_zip_Some. split.
      * by rewrite list_lookup_fmap, Hp.
      * apply lookup_rolling. rewrite !length_fmap. by eapply lookup_lt_Some.
Qed.

Lemma at_label_rolling_7d col agg (S : Frame Indexed) k p i r :
  NoDup S.*1 ->
  filter (fun q => row_key q = k) S !! p = Some (i, r) ->
  at_label (rolling_7d col agg S) i
  = agg (window 7 p (col <$> (filter (fun q => row_key q = k) S).*2)).
Proof.
  intros HS Hp. unfold at_label. by erewrite rolling_7d_lookup.
Qed.

Lemma at_label_fillna_rolling_7d v col agg (S : Frame Indexed) k p i r :
  NoDup S.*1 ->
  filter (fun q => row_key q = k) S !! p = Some (i, r) ->
  at_label (fillna v (rolling_7d col agg S)) i
  = Some (default v (agg (window 7 p
                      (col <$> (filter (fun q => row_key q = k) S).*2)))).
Proof.
  intros HS Hp. unfold at_label, fillna.
  rewrite list_to_map_fmap, lookup_fmap.
  by erewrite rolling_7d_lookup.
Qed.

Lemma filter_fmap_iff {A B} (f : A -> B) (P : B -> Prop) (Q : A -> Prop)
    `{!forall x, Decision (P x)} `{!forall x, Decision (Q x)} (l : list A) :
  (forall x, P (f x) <-> Q x) ->
  filter P (f <$> l) = f <$> filter Q l.
Proof.
  intros HPQ. induction l as [|x l IH]; [done|].
  rewrite fmap_cons, !filter_cons, IH.
  destruct (decide (P (f x))) as [HP|HP], (decide (Q x)) as [HQ|HQ];
    try done; [by apply HPQ in HP | by apply HPQ in HQ].
Qed.

Lemma range_index_fst {A} (l : list A) : (range_index l).*1 = seq 0 (length l).
Proof. unfold range_index. by rewrite fst_zip by (by rewrite length_seq). Qed.

Lemma range_index_snd {A} (l : list A) : (range_index l).*2 = l.
Proof. unfold range_index. by rewrite snd_zip by (by rewrite length_seq). Qed.

Section EngineerFacts.
Context `{!NumPy}.

Lemma sorted_frame_labels (df : list Raw) :
  NoDup (sort_values (prod_map id index_row <$> range_index df)).*1.
Proof.
  unfold sort_values. rewrite stable_sort_perm.
  rewrite <- list_fmap_compose.
  replace (fst ∘ prod_map id index_row) with (@fst nat Raw) by done.
  rewrite range_index_fst. apply NoDup_seq.
Qed.

Lemma sorted_frame_rows (df : list Raw) :
  (sort_values (prod_map id index_row <$> range_index df)).*2
  = stable_sort key_leb (index_row <$> df).
Proof.
  unfold sort_values.
  rewrite (stable_sort_fmap snd _ key_leb) by done.
  rewrite <- list_fmap_compose.
  replace (snd ∘ prod_map id index_row) with (index_row ∘ @snd nat Raw) by done.
  by rewrite list_fmap_compose, range_index_snd.
Qed.

(** The rows that [engineer_features] returns for one employee are the
    pipeline run on the rows of that employee alone. *)
Lemma engineer_features_employee (df : list Raw) (e : string) :
  filter (fun r => row_employee r = e) (engineer_features df)
  = employee_rows (stable_sort key_leb
      (index_row <$> filter (fun r => employee_id r = e) df)).
Proof.
  unfold engineer_features, engineer_frame.
  set (S := sort_values (prod_map id index_row <$> range_index df)).
  set (aw := rolling_7d workload_index mean S).
  set (al := rolling_7d wellness_index mean S).
  set (sv := fillna 0 (rolling_7d (fun r => sleep_hours (raw r)) std S)).
  rewrite <- list_fmap_compose.
  rewrite (filter_fmap_iff _ _ (fun q => row_key q = e)) by done.
  assert (HS : NoDup S.*1) by apply sorted_frame_labels.
  set (g := filter (fun q => row_key q = e) S).
  assert (g.*2 = stable_sort key_leb
            (index_row <$> filter (fun r => employee_id r = e) df)) as <-.
  { subst g.
    rewrite <- (filter_fmap_iff snd (fun r => employee_id (raw r) = e)
                 (fun q => row_key q = e)) by done.
    subst S. rewrite sorted_frame_rows.
    rewrite (filter_stable_sort key_leb key_leb_total key_leb_trans).
    f_equal. by apply filter_fmap_iff. }
  apply list_eq. intros p. unfold employee_rows.
  rewrite list_lookup_fmap, list_lookup_imap, list_lookup_fmap.
  destruct (g !! p) as [[i r]|] eqn:Hp; [|done]. simpl.
  unfold finish_row. simpl. subst aw al sv.
  erewrite !at_label_rolling_7d, at_label_fillna_rolling_7d by done.
  done.
Qed.
End EngineerFacts.

(** ** Rounding *)

Lemma Qltb_lt a b : Qltb a b = true <-> a < b.
Proof.
  unfold Qltb. rewrite negb_true_iff, <- not_true_iff_false, Qle_bool_iff.
  split; [apply Qnot_le_lt | apply Qlt_not_le].
Qed.

Lemma Qltb_ge a b : Qltb a b = false <-> b <= a.
Proof.
  unfold Qltb. rewrite negb_false_iff. apply Qle_bool_iff.
Qed.

Lemma Qltb_comp a a' b b' : a == a' -> b == b' -> Qltb a b = Qltb a' b'.
Proof. intros Ha Hb. unfold Qltb. by rewrite Ha, Hb. Qed.

Lemma np_rint_comp x y : x == y -> np_rint x = np_rint y.
Proof.
  intros H. unfold np_rint. rewrite (Qfloor_comp _ _ H).
  rewrite (Qltb_comp (x - _) (y - inject_Z (Qfloor y)) (1 # 2) (1 # 2)),
          (Qltb_comp (1 # 2) (1 # 2) (x - _) (y - inject_Z (Qfloor y)));
    try done; by rewrite H.
Qed.

Lemma np_round_comp x y d : x == y -> np_round x d = np_round y d.
Proof.
  intros H. unfold np_round.
  by rewrite (np_rint_comp (x * _) (y * inject_Z (10 ^ Z.of_nat d))) by (by rewrite H).
Qed.

Lemma np_rint_lower (a : Z) x : inject_Z a <= x -> (a <= np_rint x)%Z.
Proof.
  intros H. apply Qfloor_resp_le in H. rewrite Qfloor_Z in H.
  unfold np_rint. repeat case_match; lia.
Qed.

Lemma np_rint_upper (b : Z) x : x <= inject_Z b -> (np_rint x <= b)%Z.
Proof.
  intros H. pose proof (Qfloor_le x) as Hfl.
  assert (Qfloor x <= b)%Z as Hb.
  { apply Qfloor_resp_le in H. by rewrite Qfloor_Z in H. }
  assert (Qltb (x - inject_Z (Qfloor x)) (1 # 2) = false -> (Qfloor x + 1 <= b)%Z)
    as Hup.
  { intros Hr%Qltb_ge.
    destruct (Z.eq_dec (Qfloor x) b) as [Heq|]; [|lia].
    rewrite Heq in Hr. lra. }
  unfold np_rint. repeat case_match; auto; lia.
Qed.

Lemma np_round_2_bounds (a b : Z) x :
  inject_Z a <= x * 100 -> x * 100 <= inject_Z b ->
  inject_Z a / 100 <= np_round x 2 /\ np_round x 2 <= inject_Z b / 100.
Proof.
  intros Ha Hb. unfold np_round.
  change (inject_Z (10 ^ Z.of_nat 2)) with 100.
  apply np_rint_lower in Ha. apply np_rint_upper in Hb.
  set (n := np_rint (x * 100)) in *.
  assert (inject_Z a <= inject_Z n) by (by rewrite <- Zle_Qle).
  assert (inject_Z n <= inject_Z b) by (by rewrite <- Zle_Qle).
  split; apply Qle_shift_div_l; try done; field_simplify; lra.
Qed.

(** ** Rows of the engineered table *)

Lemma window_nonempty {A} (w p : nat) (l : list A) :
  (0 < w)%nat -> (p < length l)%nat -> window w p l <> [].
Proof.
  intros Hw Hp Hnil. apply (f_equal length) in Hnil.
  unfold window in Hnil. rewrite length_drop, length_take in Hnil. simpl in Hnil. lia.
Qed.

Lemma mean_is_Some l : l <> [] -> exists m, mean l = Some m.
Proof. destruct l; [done|]. intros _. by eexists. Qed.

Section RowFacts.
Context `{!NumPy}.

(** Every row of the result is built by [make_row] from a row of the
    input, and its rolling workload average is a number. *)
Lemma engineer_features_row (df : list Raw) (r : Row) :
  r ∈ engineer_features df ->
  exists x aw al sv,
    x ∈ df /\ r = make_row (Some aw) al sv (index_row x).
Proof.
  intros Hr. remember (row_employee r) as e eqn:He.
  assert (r ∈ filter (fun r' => row_employee r' = e) (engineer_features df))
    as Hin by (by apply list_elem_of_filter).
  clear He Hr. rewrite engineer_features_employee in Hin.
  unfold employee_rows in Hin.
  apply elem_of_lookup_imap in Hin as (p & ix & -> & Hp).
  assert (ix ∈ index_row <$> filter (fun r' => employee_id r' = e) df) as Hix.
  { rewrite <- (stable_sort_perm key_leb). by eapply list_elem_of_lookup_2. }
  apply list_elem_of_fmap in Hix as (x & -> & [_ Hx]%list_elem_of_filter).
  destruct (mean_is_Some (window 7 p (workload_index <$>
      stable_sort key_leb (index_row <$>
        filter (fun r' => employee_id r' = e) df)))) as [m Hm].
  { apply window_nonempty; [lia|]. rewrite length_fmap. by eapply lookup_lt_Some. }
  rewrite Hm. by eauto 10.
Qed.
End RowFacts.


Lemma extreme_day_in_table :
  extreme_day ∈ @engineer_features approx_sqrt sample_table.
Proof. apply (list_elem_of_lookup_2 _ 6). vm_compute. reflexivity. Defined.

(** ** The branches of the burnout risk index *)

Lemma both_lt a b c d : Qltb a b && Qltb c d = true <-> a < b /\ c < d.
Proof. by rewrite andb_true_iff, !Qltb_lt. Qed.

Lemma not_both_lt a b c d : Qltb a b && Qltb c d = false <-> ~ (a < b /\ c < d).
Proof. by rewrite <- both_lt, not_true_iff_false. Qed.

Lemma risk_branch_a w wl avg :
  8 < w /\ wl < 0.5 -> burnout_risk_index_of w wl avg == 0.9.
Proof.
  intros Ha%both_lt. unfold burnout_risk_index_of, np_select. rewrite Ha.
  vm_compute. reflexivity.
Qed.

Lemma risk_branch_b w wl avg :
  ~ (8 < w /\ wl < 0.5) -> 7 < w /\ wl < 0.6 ->
  burnout_risk_index_of w wl avg == 0.75.
Proof.
  intros Ha%not_both_lt Hb%both_lt.
  unfold burnout_risk_index_of, np_select. rewrite Ha, Hb.
  vm_compute. reflexivity.
Qed.

Lemma risk_branch_c w wl avg :
  ~ (8 < w /\ wl < 0.5) -> ~ (7 < w /\ wl < 0.6) -> 7 < avg ->
  burnout_risk_index_of w wl (Some avg) == 0.65.
Proof.
  intros Ha%not_both_lt Hb%not_both_lt Hc%Qltb_lt.
  unfold burnout_risk_index_of, np_select, nan_gt. rewrite Ha, Hb, Hc.
  vm_compute. reflexivity.
Qed.

Lemma risk_default w wl avg :
  ~ (8 < w /\ wl < 0.5) -> ~ (7 < w /\ wl < 0.6) -> ~ 7 < avg ->
  burnout_risk_index_of w wl (Some avg)
  = np_round (w / 10 * 0.4 + (1 - wl) * 0.6) 2.
Proof.
  intros Ha%not_both_lt Hb%not_both_lt Hc.
  unfold burnout_risk_index_of, np_select, nan_gt. rewrite Ha, Hb.
  destruct (Qltb 7 avg) eqn:E; [|done]. by apply Qltb_lt in E.
Qed.

(** C1.  The burnout risk index of every row is decided by the first
    branch that holds, in the order a, b, c, default: 0.90 when workload
    exceeds 8 and wellness is below 0.5; else 0.75 when workload exceeds 7
    and wellness is below 0.6; else 0.65 when the 7-day workload average
    (always a number) exceeds 7; else the rounded weighted sum.  A row with
    workload 9 and wellness 0.3 gets 0.90 whatever the average; workload 5,
    wellness 0.8 and average 3 give 0.32. *)
Theorem C1_burnout_risk_priority `{!NumPy} (df : list Raw) (r : Row) :
  r ∈ engineer_features df ->
  let w := workload_index (base r) in
  let wl := wellness_index (base r) in
  exists avg, avg_workload_7d r = Some avg /\
    (8 < w /\ wl < 0.5 -> burnout_risk_index r == 0.9) /\
    (~ (8 < w /\ wl < 0.5) -> 7 < w /\ wl < 0.6 ->
       burnout_risk_index r == 0.75) /\
    (~ (8 < w /\ wl < 0.5) -> ~ (7 < w /\ wl < 0.6) -> 7 < avg ->
       burnout_risk_index r == 0.65) /\
    (~ (8 < w /\ wl < 0.5) -> ~ (7 < w /\ wl < 0.6) -> ~ 7 < avg ->
       burnout_risk_index r = np_round (w / 10 * 0.4 + (1 - wl) * 0.6) 2) /\
    (w == 9 -> wl == 0.3 -> burnout_risk_index r == 0.9) /\
    (w == 5 -> wl == 0.8 -> avg == 3 -> burnout_risk_index r == 0.32) /\
    (forall any_avg, burnout_risk_index_of 9 0.3 any_avg == 0.9) /\
    burnout_risk_index_of 5 0.8 (Some 3) == 0.32.
Proof.
  intros (x & aw & al & sv & _ & ->)%engineer_features_row. simpl.
  set (w := workload_index_of x). set (wl := wellness_index_of x).
  exists (np_round aw 2). split; [done|].
  split; [apply risk_branch_a|]. split; [apply risk_branch_b|].
  split; [apply risk_branch_c|]. split; [apply risk_default|].
  split; [|split; [|split]].
  - intros Hw Hwl. apply risk_branch_a. lra.
  - intros Hw Hwl Havg. rewrite risk_default by lra.
    rewrite (np_round_comp _ 0.32) by (rewrite Hw, Hwl; reflexivity).
    vm_compute. reflexivity.
  - intros any_avg. apply risk_branch_a. lra.
  - rewrite risk_default by lra. vm_compute. reflexivity.
Qed.

(** The extreme day of [sample_table] falls through to the default
    branch. *)
Lemma C1_witness :
  extreme_day ∈ @engineer_features approx_sqrt sample_table /\
  exists avg, avg_workload_7d extreme_day = Some avg /\
    burnout_risk_index extreme_day
    = np_round (workload_index (base extreme_day) / 10 * 0.4
                + (1 - wellness_index (base extreme_day)) * 0.6) 2.
Proof.
  split; [exact extreme_day_in_table|].
  destruct (C1_burnout_risk_priority sample_table extreme_day
              extreme_day_in_table) as (avg & Havg & _ & _ & _ & Hd & _).
  exists avg. split; [exact Havg|].
  assert (avg = 5.00) as -> by (vm_compute in Havg; congruence).
  apply Hd; unfold extreme_day; simpl; lra.
Defined.


(** C2.  The burnout category of every engineered row is High exactly when
    the burnout risk index is at least 0.70, Medium exactly when it is at
    least 0.50 and below 0.70, and Low otherwise. *)
Theorem C2_burnout_category_thresholds `{!NumPy} (df : list Raw) (r : Row) :
  r ∈ engineer_features df ->
  (burnout_category r = "High"%string <-> 0.7 <= burnout_risk_index r) /\
  (burnout_category r = "Medium"%string <->
     0.5 <= burnout_risk_index r /\ burnout_risk_index r < 0.7) /\
  (burnout_category r = "Low"%string <-> burnout_risk_index r < 0.5).
Proof.
  intros (x & aw & al & sv & _ & ->)%engineer_features_row. simpl.
  set (risk := burnout_risk_index_of _ _ _).
  unfold burnout_category_of, np_select.
  destruct (Qle_bool 0.7 risk) eqn:E7.
  { apply Qle_bool_iff in E7. split_and!; split; try done; intros; lra. }
  assert (risk < 0.7) as H7.
  { apply Qnot_le_lt. rewrite <- Qle_bool_iff. congruence. }
  destruct (Qle_bool 0.5 risk) eqn:E5.
  { apply Qle_bool_iff in E5. split_and!; split; try done; intros; lra. }
  assert (risk < 0.5) as H5.
  { apply Qnot_le_lt. rewrite <- Qle_bool_iff. congruence. }
  split_and!; split; try done; intros; lra.
Qed.

Lemma C2_witness :
  extreme_day ∈ @engineer_features approx_sqrt sample_table /\
  burnout_category extreme_day = "High"%string.
Proof.
  split; [exact extreme_day_in_table|].
  apply (C2_burnout_category_thresholds sample_table extreme_day
           extreme_day_in_table).
  unfold extreme_day; simpl; lra.
Defined.


Lemma idle_day_in_table :
  idle_day ∈ @engineer_features approx_sqrt idle_table.
Proof. apply (list_elem_of_lookup_2 _ 0). vm_compute. reflexivity. Defined.


(** C4, as the code has it.  When the workload index lies in [0, 10] and
    the wellness index in [0, 1], the burnout risk index lies in [0, 1]. *)
Theorem C4_burnout_risk_range `{!NumPy} (df : list Raw) (r : Row) :
  r ∈ engineer_features df ->
  0 <= workload_index (base r) <= 10 ->
  0 <= wellness_index (base r) <= 1 ->
  0 <= burnout_risk_index r <= 1.
Proof.
  intros (x & aw & al & sv & _ & ->)%engineer_features_row. simpl.
  set (w := workload_index_of x). set (wl := wellness_index_of x).
  intros Hw Hwl.
  assert (forall v, 0 <= v <= 1 -> 0 <= np_round v 2 <= 1) as Hround.
  { intros v Hv.
    destruct (np_round_2_bounds 0 100 v) as [H0 H1].
    - change (inject_Z 0) with 0. lra.
    - change (inject_Z 100) with 100. lra.
    - change (inject_Z 0 / 100) with (0 # 100) in H0.
      change (inject_Z 100 / 100) with (100 # 100) in H1. lra. }
  unfold burnout_risk_index_of, np_select.
  repeat case_match; apply Hround; try lra.
  unfold Qdiv. change (/ 10) with (1 # 10). lra.
Qed.

Lemma C4_witness :
  0 <= burnout_risk_index
         (default extreme_day (@engineer_features approx_sqrt sample_table !! 0%nat))
    <= 1.
Proof.
  apply (@C4_burnout_risk_range approx_sqrt sample_table).
  - apply (list_elem_of_lookup_2 _ 0). vm_compute. reflexivity.
  - vm_compute. split; discriminate.
  - vm_compute. split; discriminate.
Defined.

(** The score is not clamped: on the extreme day of [sample_table] the
    default branch gives 1.02. *)
Lemma C4_counterexample :
  ~ (forall (np : NumPy) (df : list Raw) (r : Row),
       r ∈ engineer_features df -> 0 <= burnout_risk_index r <= 1).
Proof.
  intros H.
  destruct (H approx_sqrt sample_table extreme_day extreme_day_in_table)
    as [_ Hle].
  unfold extreme_day in Hle; simpl in Hle. lra.
Qed.

(** ** Rolling aggregates stay inside one employee *)

Lemma employee_rows_base `{!NumPy} (g : list Indexed) :
  base <$> employee_rows g = g.
Proof.
  apply list_eq. intros p. unfold employee_rows.
  rewrite list_lookup_fmap, list_lookup_imap.
  by destruct (g !! p).
Qed.

Lemma same_employee_dates_sorted (e : string) (g : list Indexed) :
  StronglySorted (fun a b => key_leb a b = true) g ->
  Forall (fun a => employee_id (raw a) = e) g ->
  StronglySorted Z.le ((fun a => date (raw a)) <$> g).
Proof.
  induction 1 as [|a g Hs IH Ha]; intros Hall; csimpl; constructor.
  - apply IH. by eapply Forall_cons_1.
  - apply Forall_fmap, Forall_forall. intros b Hb. simpl.
    apply key_leb_same_employee; [|by eapply Forall_forall in Ha].
    apply Forall_cons in Hall as [-> Hg]. symmetry. by eapply Forall_forall in Hg.
Qed.

(** C5.  When two input tables hold the same rows of an employee, in the
    same order, the engineered rows of that employee are the same in both,
    whatever rows of other employees are inserted, removed or moved.  They
    are the pipeline run on the rows of that employee alone, so no window
    reaches another employee, and they come in ascending date order. *)
Theorem C5_rolling_per_employee `{!NumPy} (e : string) (t1 t2 : list Raw) :
  filter (fun r => employee_id r = e) t1 = filter (fun r => employee_id r = e) t2 ->
  let rows := fun t => filter (fun r => row_employee r = e) (engineer_features t) in
  rows t1 = rows t2 /\
  rows t1 = employee_rows (stable_sort key_leb
              (index_row <$> filter (fun r => employee_id r = e) t1)) /\
  StronglySorted Z.le (row_date <$> rows t1).
Proof.
  intros Heq rows. subst rows. cbv beta.
  rewrite !engineer_features_employee, Heq. split_and!; [done..|].
  set (g := stable_sort key_leb _).
  replace (row_date <$> employee_rows g)
    with ((fun a => date (raw a)) <$> (base <$> employee_rows g))
    by (by rewrite <- list_fmap_compose).
  rewrite employee_rows_base.
  apply (same_employee_dates_sorted e).
  - apply (stable_sort_sorted key_leb key_leb_total key_leb_trans).
  - subst g. rewrite stable_sort_perm. apply Forall_fmap, Forall_forall.
    by intros x [? _]%list_elem_of_filter.
Qed.


Lemma C5_witness :
  filter (fun r => row_employee r = "EMP000"%string)
         (@engineer_features approx_sqrt sample_table)
  = filter (fun r => row_employee r = "EMP000"%string)
           (@engineer_features approx_sqrt sample_table_shuffled).
Proof.
  apply (@C5_rolling_per_employee approx_sqrt "EMP000" sample_table
           sample_table_shuffled).
  vm_compute. reflexivity.
Defined.

(** ** The generator and the clock *)

(** C3, as the code has it.  With the employee count, the day count and
    the date read from the clock fixed, a call returns the same table and
    leaves the same generator state whatever state the random generator
    was in before the call; so two calls in a row on the same date return
    the same table. *)
Theorem C3_generate_same_date `{!NumPy} `{!RandomState}
    (num_employees num_days : nat) (now : Z) :
  (forall s1 s2 : rng,
     generate_employee_data num_employees num_days now s1
     = generate_employee_data num_employees num_days now s2) /\
  (forall s : rng,
     let first := generate_employee_data num_employees num_days now s in
     let second := generate_employee_data num_employees num_days now first.1 in
     second.2 = first.2).
Proof.
  assert (forall s1 s2 : rng,
            generate_employee_data num_employees num_days now s1
            = generate_employee_data num_employees num_days now s2) as Hs.
  { intros s1 s2. unfold generate_employee_data. reflexivity. }
  split; [exact Hs|]. intros s. cbv zeta. by rewrite (Hs _ s).
Qed.

(** One employee, one day: a call on Wednesday 2024-01-03 (ordinal 738888)
    produces the row of Tuesday, a call on Thursday the row of Wednesday. *)
Lemma C3_counterexample :
  ~ (forall (np : NumPy) (rs : RandomState) (num_employees num_days : nat)
            (now1 now2 : Z) (s1 s2 : rng),
       (generate_employee_data num_employees num_days now1 s1).2
       = (generate_employee_data num_employees num_days now2 s2).2).
Proof.
  intros H.
  specialize (H approx_sqrt mean_rng 1%nat 1%nat 738888%Z 738889%Z 0%nat 0%nat).
  vm_compute in H. discriminate H.
Qed.

(** ** The life cycle of the predictor *)

(** Running one step of a computation in [M]. *)
Lemma bind_Ok {S A B} (m : M S A) (f : A -> M S B) s s' a :
  m s = (s', Ok a) -> (m ≫= f) s = f a s'.
Proof. unfold mbind, M_bind. by intros ->. Qed.

Lemma bind_Raise {S A B} (m : M S A) (f : A -> M S B) s s' e :
  m s = (s', Raise e) -> (m ≫= f) s = (s', Raise e).
Proof. unfold mbind, M_bind. by intros ->. Qed.

Lemma lift_run {S A} (r : result A) (s : S) : lift r s = (s, r).
Proof. done. Qed.

Lemma sk_run {S A} (r : string + A) (s : S) :
  sk r s = (s, match r with inr a => Ok a | inl msg => Raise (SklearnError msg) end).
Proof. by destruct r. Qed.

(** Case analysis on the innermost scrutinee of the goal, or of a
    hypothesis. *)
Ltac step_goal :=
  match goal with
  | |- context [sk ?r ?s] => rewrite (sk_run r s); destruct r eqn:?
  | |- context [match ?x with _ => _ end] =>
      lazymatch x with
      | context [match _ with _ => _ end] => fail
      | _ => destruct x eqn:?
      end
  end.

Ltac step_in H :=
  match type of H with
  | context [sk ?r ?s] => rewrite (sk_run r s) in H; destruct r eqn:?
  | context [match ?x with _ => _ end] =>
      lazymatch x with
      | context [match _ with _ => _ end] => fail
      | _ => destruct x eqn:?
      end
  end.

Section TrainFacts.
Context `{!Sklearn}.


Lemma set_label_encoder_twice a b (p : Predictor) :
  set_label_encoder a (set_label_encoder b p) = set_label_encoder a p.
Proof. done. Qed.
Lemma set_scaler_twice a b (p : Predictor) :
  set_scaler a (set_scaler b p) = set_scaler a p.
Proof. done. Qed.
Lemma set_model_twice a b (p : Predictor) :
  set_model a (set_model b p) = set_model a p.
Proof. done. Qed.

Lemma train_stages (features_df : list (string * list Value)) (p p' : Predictor)
    (r : result unit) :
  train features_df p = (p', r) -> train_outcome p p' r.
Proof.
  unfold train. unfold mbind, M_bind, lift, modify, get, mret, M_ret, raise.
  intros Hrun.
  repeat (step_in Hrun; simpl in Hrun);
    simplify_eq;
    rewrite ?set_label_encoder_twice, ?set_scaler_twice, ?set_model_twice;
    econstructor.
Qed.
End TrainFacts.



Section LoadFacts.
Context `{!Sklearn}.

Lemma load_saved (p q : Predictor) (filepath : string)
    (fs : gmap string (gmap string PyObj)) :
  load (save p filepath fs).1 filepath q = (p, Ok tt).
Proof.
  unfold save, load, modify. simpl. rewrite lookup_insert_eq.
  unfold entry. simplify_map_eq.
  destruct p as [[m|] [s|] [e|] c]; reflexivity.
Qed.

Lemma load_missing (q : Predictor) (filepath : string)
    (fs : gmap string (gmap string PyObj)) :
  fs !! filepath = None -> load fs filepath q = (q, Ok tt).
Proof. unfold load. by intros ->. Qed.
End LoadFacts.

Section LifeCycle.
Context `{!Sklearn}.

(** C6, as the code has it.  A call of [train] that returns has replaced
    the label encoder, the scaler and the model by newly fitted ones.  A
    call that raises stops at one of five places; the attributes assigned
    before that place keep their new object, fitted or not, and the later
    ones keep their value from before the call: the encoder is replaced
    first, then the scaler, then the model. *)
Theorem C6_train_replaces_in_order (features_df : list (string * list Value))
    (p p' : Predictor) (r : result unit) :
  train features_df p = (p', r) ->
  train_outcome p p' r /\
  feature_cols p' = feature_cols p /\
  (r = Ok tt ->
     exists le sc rf, label_encoder p' = Some (Fitted le) /\
       scaler p' = Some (Fitted sc) /\ model p' = Some (Fitted rf)) /\
  (forall e, r = Raise e ->
     (model p' = model p \/ model p' = Some Unfitted) /\
     (scaler p' = scaler p \/ scaler p' = Some Unfitted \/
        exists sc, scaler p' = Some (Fitted sc)) /\
     (scaler p' <> scaler p -> exists le, label_encoder p' = Some (Fitted le)) /\
     (model p' <> model p -> exists sc, scaler p' = Some (Fitted sc))).
Proof.
  intros Hrun%train_stages. split; [done|].
  destruct Hrun; simpl; split_and!; try done; eauto 10.
  all: intros ? [=]; split_and!; simpl; eauto.
  all: intros Hne; by destruct Hne.
Qed.

Lemma never_trained_model (p : Predictor) :
  never_trained p -> model p = None \/ model p = Some Unfitted.
Proof.
  induction 1 as [|p df p' e _ IH Hrun
                  |p fs filepath p' r _ IH Hfile Hrun
                  |p q fs filepath p' r _ _ _ IH Hrun]; [by left| | |].
  - apply train_stages in Hrun. inversion Hrun; subst; simpl; auto.
  - rewrite load_missing in Hrun by done. by injection Hrun as <- _.
  - rewrite load_saved in Hrun. by injection Hrun as <- _.
Qed.

Lemma predict_without_model (p : Predictor) (l : nat)
    (h : gmap nat (list (string * list Value))) :
  model p = None ->
  predict p l h = (h, Raise (ValueError "Model not trained yet")).
Proof. unfold predict. by intros ->. Qed.

Lemma predict_unfitted_model (p : Predictor) (l : nat)
    (h : gmap nat (list (string * list Value))) :
  model p = Some Unfitted -> exists e, predict p l h = (h, Raise e).
Proof.
  unfold predict. intros ->.
  unfold mbind, M_bind, lift, deref, fitted, raise, mret, M_ret.
  repeat (step_goal; simpl); eauto.
Qed.
End LifeCycle.

Lemma C6_witness :
  @train stub_sklearn sample_frame init = (sample_predictor, Ok tt) /\
  exists le sc rf,
    label_encoder sample_predictor = Some (Fitted le) /\
    scaler sample_predictor = Some (Fitted sc) /\
    model sample_predictor = Some (Fitted rf).
Proof.
  assert (@train stub_sklearn sample_frame init
          = (sample_predictor, Ok tt)) as Hrun by (vm_compute; reflexivity).
  split; [exact Hrun|].
  apply (C6_train_replaces_in_order sample_frame init _ _ Hrun). reflexivity.
Defined.

(** Retraining a trained predictor on a frame without the label column
    raises [KeyError] after the encoder was replaced by a new, unfitted one:
    the model and the scaler are the old ones, the encoder is not. *)
Lemma C6_counterexample :
  ~ (forall (sk : Sklearn) (features_df : list (string * list Value))
            (p p' : Predictor) (e : exn),
       train features_df p = (p', Raise e) ->
       model p' = model p /\ scaler p' = scaler p /\
       label_encoder p' = label_encoder p).
Proof.
  intros Hatomic.
  destruct (Hatomic stub_sklearn unlabelled_frame sample_predictor
              (set_label_encoder (Some Unfitted) sample_predictor)
              (KeyError "burnout_category")) as (_ & _ & Henc).
  - vm_compute. reflexivity.
  - vm_compute in Henc. discriminate Henc.
Qed.

Lemma getitems_raises_KeyError df cols e :
  getitems df cols = Raise e -> exists k, e = KeyError k.
Proof.
  revert e. induction cols as [|c cols IH]; intros e; simpl; [done|].
  unfold getitem. destruct (find_column df c).
  - destruct (getitems df cols); [done|]. intros [= <-]. eauto.
  - intros [= <-]. eauto.
Qed.

Section PredictGuard.
Context `{!Sklearn}.

Lemma predict_with_model (p : Predictor) (l : nat)
    (h : gmap nat (list (string * list Value))) m :
  model p = Some m ->
  (predict p l h).2 <> Raise (ValueError "Model not trained yet").
Proof.
  unfold predict. intros ->.
  unfold assign, setitem, proba_column.
  unfold mbind, M_bind, lift, deref, fitted, raise, mret, M_ret, modify.
  repeat (step_goal; simpl); try done.
  by match goal with
     | Hr : getitems _ _ = Raise _ |- _ =>
         apply getitems_raises_KeyError in Hr as [k ->]
     end.
Qed.

Lemma predict_unfitted_model_error (p : Predictor) (l : nat)
    (h : gmap nat (list (string * list Value))) df X sc X_scaled e :
  model p = Some Unfitted -> h !! l = Some df ->
  getitems df (feature_cols p) = Ok X ->
  scaler p = Some (Fitted sc) -> ss_transform sc X = inr X_scaled ->
  predict p l h = (h, Raise e) -> e = NotFittedError.
Proof.
  unfold predict. intros -> Hdf HX -> Hsc.
  unfold mbind, M_bind, lift, deref, fitted, raise, mret, M_ret.
  rewrite Hdf, HX, sk_run, Hsc. by intros [= <-].
Qed.

End PredictGuard.



(** ** Saving and loading *)

Section SaveLoad.
Context `{!Sklearn}.

(** C8.  Loading what [save] wrote, into a new predictor or any other,
    gives back the four attributes, so the loaded predictor is the saved
    one and [predict] runs on it exactly as on the original. *)
Theorem C8_save_load_roundtrip (p q : Predictor) (filepath : string)
    (fs : gmap string (gmap string PyObj)) :
  let fs' := (save p filepath fs).1 in
  load fs' filepath q = (p, Ok tt) /\
  model (load fs' filepath q).1 = model p /\
  scaler (load fs' filepath q).1 = scaler p /\
  label_encoder (load fs' filepath q).1 = label_encoder p /\
  feature_cols (load fs' filepath q).1 = feature_cols p /\
  (forall l h, predict (load fs' filepath q).1 l h = predict p l h).
Proof.
  assert (load (save p filepath fs).1 filepath q = (p, Ok tt)) as Hload.
  { unfold save, load, modify. simpl. rewrite lookup_insert_eq.
    unfold entry. simplify_map_eq.
    destruct p as [[m|] [s|] [e|] c]; reflexivity. }
  cbv zeta. rewrite Hload. by split_and!.
Qed.
End SaveLoad.

(** ** The frame effect of [predict] *)

Lemma find_replace_column_same df col values :
  find_column (replace_column df col values) col = Some values.
Proof.
  induction df as [|c df IH]; simpl.
  - by rewrite String.eqb_refl.
  - destruct (String.eqb c.1 col) eqn:E; simpl.
    + by rewrite String.eqb_refl.
    + by rewrite E.
Qed.

Lemma find_replace_column_other df col values col' :
  col' <> col ->
  find_column (replace_column df col values) col' = find_column df col'.
Proof.
  intros Hne. induction df as [|c df IH]; simpl.
  - assert (String.eqb col col' = false) as ->; [|done].
    apply String.eqb_neq. congruence.
  - destruct (String.eqb c.1 col) eqn:E; simpl.
    + apply String.eqb_eq in E as ->.
      assert (String.eqb col col' = false) as ->; [|done].
      apply String.eqb_neq. congruence.
    + by rewrite IH.
Qed.

Lemma replace_column_names df col values :
  (replace_column df col values).*1
  = df.*1 ++ filter (fun c => c ∉ df.*1) [col].
Proof.
  induction df as [|c df IH]; csimpl.
  - rewrite filter_cons_True; [done|]. apply not_elem_of_nil.
  - destruct (String.eqb c.1 col) eqn:E; csimpl.
    + apply String.eqb_eq in E as <-.
      rewrite filter_cons_False, filter_nil, app_nil_r; [done|].
      intros Hn. apply Hn. left.
    + apply String.eqb_neq in E. rewrite IH. f_equal. f_equal.
      rewrite !filter_cons, !filter_nil.
      destruct (decide (col ∉ df.*1)) as [Hd|Hd],
               (decide (col ∉ c.1 :: df.*1)) as [Hd'|Hd']; try done.
      * exfalso. apply Hd'. intros [?|?]%elem_of_cons; congruence.
      * exfalso. apply Hd. intros ?. apply Hd'. by right.
Qed.

Lemma setitem_Ok df col values df' :
  setitem df col values = Ok df' -> df' = replace_column df col values.
Proof.
  unfold setitem. destruct df; [by intros [= <-]|].
  case_match; [by intros [= <-]|done].
Qed.

Lemma two_new_columns (names : list string) (a b : string) :
  a <> b ->
  filter (fun c => c ∉ names) [a]
    ++ filter (fun c => c ∉ names ++ filter (fun c => c ∉ names) [a]) [b]
  = filter (fun c => c ∉ names) [a; b].
Proof.
  intros Hab. rewrite !filter_cons, !filter_nil.
  destruct (decide (a ∉ names)) as [Ha|Ha]; simpl; rewrite ?app_nil_r;
    repeat case_decide; try done; exfalso.
  - match goal with Hn : _ ∉ _ ++ _ |- _ => apply Hn end.
    apply elem_of_app. by left.
  - match goal with Hn : _ ∈ _ ++ _ |- _ =>
      apply elem_of_app in Hn as [?|?%list_elem_of_singleton]
    end; [done|congruence].
Qed.

Section PredictFrame.
Context `{!Sklearn}.

(** What a call of [predict] that returns has done. *)
Lemma predict_Ok (p : Predictor) (l l' : nat)
    (h h' : gmap nat (list (string * list Value))) :
  predict p l h = (h', Ok l') ->
  l' = l /\
  exists df categories proba,
    h !! l = Some df /\
    h' = <[l := replace_column
                  (replace_column df "prediction_category" categories)
                  "prediction_proba_high" proba]> h.
Proof.
  unfold predict, assign.
  unfold mbind, M_bind, lift, deref, fitted, raise, mret, M_ret, modify.
  intros Hrun.
  repeat (first [ rewrite lookup_insert_eq in Hrun
                | step_in Hrun ]; simpl in Hrun);
    simplify_eq;
    repeat match goal with
           | Hs : setitem _ _ _ = Ok _ |- _ => apply setitem_Ok in Hs as ->
           end;
    (split; [done|]); do 3 eexists; (split; [done|]);
    by rewrite insert_insert_eq.
Qed.

(** C10, as the code has it.  A call of [predict] that returns hands back
    the reference it was given, and the frame behind it is the only object
    that changed.  Every column other than [prediction_category] and
    [prediction_proba_high] is as before; these two now exist, each
    overwritten where it stood if the frame had it and appended after the
    old columns otherwise. *)
Theorem C10_predict_in_place (p : Predictor) (l l' : nat)
    (h h' : gmap nat (list (string * list Value)))
    (df : list (string * list Value)) :
  h !! l = Some df ->
  predict p l h = (h', Ok l') ->
  l' = l /\
  exists df',
    h' = <[l := df']> h /\
    (forall col, col <> "prediction_category"%string ->
                 col <> "prediction_proba_high"%string ->
                 find_column df' col = find_column df col) /\
    is_Some (find_column df' "prediction_category") /\
    is_Some (find_column df' "prediction_proba_high") /\
    df'.*1 = df.*1 ++ filter (fun c => c ∉ df.*1)
                        ["prediction_category"; "prediction_proba_high"]%string.
Proof.
  intros Hdf (-> & df0 & cats & proba & Hdf0 & ->)%predict_Ok.
  assert (df0 = df) as -> by congruence.
  split; [done|]. eexists. split; [done|]. split_and!.
  - intros col H1 H2. by rewrite !find_replace_column_other.
  - rewrite find_replace_column_other by done.
    rewrite find_replace_column_same. by eexists.
  - rewrite find_replace_column_same. by eexists.
  - rewrite !replace_column_names, <- app_assoc. f_equal.
    by apply two_new_columns.
Qed.
End PredictFrame.


Lemma C10_witness :
  let h : gmap nat (list (string * list Value)) := {[ 0%nat := sample_frame ]} in
  let out := @predict stub_sklearn sample_predictor 0%nat h in
  h !! 0%nat = Some sample_frame /\ out.2 = Ok 0%nat /\
  exists df',
    out.1 = <[0%nat := df']> h /\
    df'.*1 = sample_frame.*1
             ++ ["prediction_category"; "prediction_proba_high"]%string.
Proof.
  intros h out.
  assert (h !! 0%nat = Some sample_frame) as Hdf by reflexivity.
  assert (out = (out.1, Ok 0%nat)) as Hout by (vm_compute; reflexivity).
  destruct (@C10_predict_in_place stub_sklearn sample_predictor
              0%nat 0%nat h out.1 sample_frame Hdf Hout)
    as (_ & df' & Hh & _ & _ & _ & Hnames).
  split; [exact Hdf|]. split; [reflexivity|].
  exists df'. split; [exact Hh|]. exact Hnames.
Defined.

(** Scoring a frame that already has a [prediction_category] column
    overwrites that column and appends one column, not two. *)
Lemma C10_counterexample :
  ~ (forall (sk : Sklearn) (p : Predictor) (l l' : nat)
            (h h' : gmap nat (list (string * list Value)))
            (df : list (string * list Value)),
       (exists training_df, train training_df init = (p, Ok tt)) ->
       (forall col, col ∈ feature_cols p -> is_Some (find_column df col)) ->
       h !! l = Some df ->
       predict p l h = (h', Ok l') ->
       exists df',
         h' !! l = Some df' /\
         (forall col, is_Some (find_column df col) ->
                      find_column df' col = find_column df col) /\
         length df' = (length df + 2)%nat).
Proof.
  intros Hframe.
  set (h := {[ 0%nat := scored_frame ]} : gmap nat (list (string * list Value))).
  destruct (Hframe stub_sklearn sample_predictor 0%nat 0%nat h
              (@predict stub_sklearn sample_predictor 0%nat h).1
              scored_frame) as (df' & Hdf' & _ & Hlen).
  - exists sample_frame. vm_compute. reflexivity.
  - apply Forall_forall. vm_compute.
    repeat constructor; by eexists.
  - reflexivity.
  - vm_compute. reflexivity.
  - vm_compute in Hdf'. injection Hdf' as <-. vm_compute in Hlen. discriminate Hlen.
Qed.

(** ** The sample values in binary64 *)

Section Binary64Samples.
Local Open Scope float_scope.
Local Set Warnings "-inexact-float".

(** Workload 9 and wellness 0.3 give 0.90 whatever the average. *)
Example binary64_branch_a (avg : float) :
  Binary64.burnout_risk_index_of 9 0.3 avg = 0.9.
Proof. vm_compute. reflexivity. Qed.

Example binary64_branch_b :
  Binary64.burnout_risk_index_of 7.5 0.55 5 = 0.75.
Proof. vm_compute. reflexivity. Qed.

(** No branch holds: 5/10*0.4 + (1-0.8)*0.6 is 0.31999999999999995 and
    rounds to 0.32. *)
Example binary64_default :
  Binary64.burnout_risk_index_of 5 0.8 3 = 0.32.
Proof. vm_compute. reflexivity. Qed.

Example binary64_meeting_burden_zero_hours (meetings : float) :
  Binary64.meeting_burden_of 0 meetings = 0.
Proof. vm_compute. reflexivity. Qed.

(** The quotient that the guard drops on a row without active hours: an
    infinity with three meetings, NaN without meetings. *)
Example binary64_quotient_zero_hours :
  3 * 0.5 / 0 = infinity /\ PrimFloat.is_nan (0 * 0.5 / 0) = true.
Proof. vm_compute. auto. Qed.

(** The extreme day of [sample_table]: 14 active hours, 60 meetings and 6
    after-hours give a workload index of 25.4, eight hours of sleep without
    stress a wellness index of 1, and the risk index is 1.02. *)
Example binary64_extreme_day :
  Binary64.workload_index_of 14 60 6 = 25.4 /\
  Binary64.wellness_index_of 8 0 = 1 /\
  Binary64.burnout_risk_index_of 25.4 1 5 = 1.02.
Proof. vm_compute. auto. Qed.
End Binary64Samples.

(** ** More on rounding *)

Lemma pow10_pos (d : nat) : 0 < inject_Z (10 ^ Z.of_nat d).
Proof.
  change 0 with (inject_Z 0). rewrite <- Zlt_Qlt. apply Z.pow_pos_nonneg; lia.
Qed.

Lemma np_round_lower (lo : Z) x d : inject_Z lo <= x -> inject_Z lo <= np_round x d.
Proof.
  intros Hx. unfold np_round. pose proof (pow10_pos d) as Hf.
  set (f := (10 ^ Z.of_nat d)%Z) in *.
  apply Qle_shift_div_l; [done|].
  rewrite <- inject_Z_mult, <- Zle_Qle. apply np_rint_lower.
  rewrite inject_Z_mult. apply Qmult_le_compat_r; [done|by apply Qlt_le_weak].
Qed.

Lemma np_round_upper (hi : Z) x d : x <= inject_Z hi -> np_round x d <= inject_Z hi.
Proof.
  intros Hx. unfold np_round. pose proof (pow10_pos d) as Hf.
  set (f := (10 ^ Z.of_nat d)%Z) in *.
  apply Qle_shift_div_r; [done|].
  rewrite <- inject_Z_mult, <- Zle_Qle. apply np_rint_upper.
  rewrite inject_Z_mult. apply Qmult_le_compat_r; [done|by apply Qlt_le_weak].
Qed.

(** ** The engineered table as a whole *)

Lemma StronglySorted_fmap_inv {A B} (R : B -> B -> Prop) (R' : A -> A -> Prop)
    (f : A -> B) l :
  (forall a b, R (f a) (f b) -> R' a b) ->
  StronglySorted R (f <$> l) -> StronglySorted R' l.
Proof.
  intros HR. induction l as [|x l IH]; csimpl; intros Hs; [constructor|].
  apply StronglySorted_cons in Hs as [Hx Hl].
  constructor; [by apply IH|]. rewrite Forall_fmap in Hx.
  eapply Forall_impl; [exact Hx|]. intros b Hb. by apply HR.
Qed.

Lemma key_leb_spec a b :
  key_leb a b = true <->
  String.compare (employee_id (raw a)) (employee_id (raw b)) = Lt \/
  (employee_id (raw a) = employee_id (raw b) /\ (date (raw a) <= date (raw b))%Z).
Proof.
  unfold key_leb.
  destruct (String.compare _ _) eqn:E.
  - apply String.compare_eq_iff in E. rewrite Z.leb_le.
    split; [auto|]. by intros [?|[_ ?]].
  - split; auto.
  - split; [done|]. intros [?|[Heq _]]; [done|].
    rewrite Heq, string_compare_refl in E. done.
Qed.

Section TableFacts.
Context `{!NumPy}.

Lemma engineer_features_base (df : list Raw) :
  base <$> engineer_features df = stable_sort key_leb (index_row <$> df).
Proof.
  unfold engineer_features, engineer_frame.
  rewrite <- sorted_frame_rows.
  rewrite <- !list_fmap_compose. done.
Qed.

Lemma engineer_features_raw (df : list Raw) :
  (fun r => raw (base r)) <$> engineer_features df
  = raw <$> stable_sort key_leb (index_row <$> df).
Proof. by rewrite <- engineer_features_base, <- list_fmap_compose. Qed.

Lemma engineer_features_rows (df : list Raw) :
  (fun r => raw (base r)) <$> engineer_features df ≡ₚ df /\
  length (engineer_features df) = length df /\
  Forall (fun r => base r = index_row (raw (base r))) (engineer_features df).
Proof.
  assert ((fun r => raw (base r)) <$> engineer_features df ≡ₚ df) as Hperm.
  { rewrite engineer_features_raw, stable_sort_perm, <- list_fmap_compose.
    change (raw ∘ index_row) with (@id Raw). rewrite list_fmap_id. reflexivity. }
  split; [exact Hperm|]. split.
  - apply Permutation_length in Hperm. by rewrite length_fmap in Hperm.
  - assert (Forall (fun b => b = index_row (raw b)) (base <$> engineer_features df))
      as Hb; [|rewrite Forall_fmap in Hb; exact Hb].
    rewrite engineer_features_base, stable_sort_perm.
    rewrite Forall_fmap. by apply Forall_forall.
Qed.

(** X1.  [engineer_features] neither drops nor duplicates nor alters a row:
    the input columns of the result are a rearrangement of the input table,
    every input row is the source of a row of the result, and the three
    per-row indices of every row are computed from the input columns of
    that same row. *)
Theorem engineer_features_keeps_rows (df : list Raw) :
  (fun r => raw (base r)) <$> engineer_features df ≡ₚ df /\
  length (engineer_features df) = length df /\
  (forall x, x ∈ df <-> exists r, r ∈ engineer_features df /\ raw (base r) = x) /\
  Forall (fun r => base r = index_row (raw (base r))) (engineer_features df).
Proof.
  destruct (engineer_features_rows df) as (Hperm & Hlen & Hbase).
  split_and!; [done..| |done].
  intros x. rewrite <- Hperm, list_elem_of_fmap. split.
  - intros (r & -> & Hr). by exists r.
  - intros (r & Hr & <-). by exists r.
Qed.

(** X2.  The result is ordered by employee id (as strings) and, for one
    employee, by date. *)
Theorem engineer_features_sorted (df : list Raw) :
  StronglySorted
    (fun a b =>
       String.compare (row_employee a) (row_employee b) = Lt \/
       (row_employee a = row_employee b /\ (row_date a <= row_date b)%Z))
    (engineer_features df).
Proof.
  pose proof (stable_sort_sorted key_leb key_leb_total key_leb_trans
                (index_row <$> df)) as Hs.
  rewrite <- engineer_features_base in Hs.
  eapply StronglySorted_fmap_inv; [|exact Hs].
  intros a b Hab. by apply key_leb_spec in Hab.
Qed.

(** The rolling columns of one row. *)

Lemma np_rint_Z (n : Z) : np_rint (inject_Z n) = n.
Proof.
  unfold np_rint. rewrite Qfloor_Z.
  assert (Qltb (inject_Z n - inject_Z n) (1 # 2) = true) as ->; [|done].
  apply Qltb_lt. lra.
Qed.

Lemma np_round_idempotent x d : np_round (np_round x d) d = np_round x d.
Proof.
  unfold np_round.
  set (f := inject_Z (10 ^ Z.of_nat d)).
  assert (~ f == 0) as Hf.
  { subst f. change 0 with (inject_Z 0). rewrite inject_Z_injective.
    apply Z.pow_nonzero; lia. }
  rewrite (np_rint_comp _ (inject_Z (np_rint (x * f)))); [by rewrite np_rint_Z|].
  field. done.
Qed.

Lemma Qsum_bounds (a b : Q) (l : list Q) :
  Forall (fun x => a <= x <= b) l ->
  a * inject_Z (Z.of_nat (length l)) <= Qsum l
  /\ Qsum l <= b * inject_Z (Z.of_nat (length l)).
Proof.
  induction 1 as [|x l [Hax Hxb] _ [IH1 IH2]].
  - change (Qsum []) with 0. change (inject_Z (Z.of_nat (length []))) with 0.
    lra.
  - change (Qsum (x :: l)) with (x + Qsum l).
    change (length (x :: l)) with (S (length l)).
    rewrite Nat2Z.inj_succ, <- Z.add_1_r, inject_Z_plus.
    change (inject_Z 1) with 1. lra.
Qed.

Lemma mean_bounds (a b m : Q) (l : list Q) :
  Forall (fun x => a <= x <= b) l -> mean l = Some m -> a <= m <= b.
Proof.
  intros Hl Hm. destruct (Qsum_bounds a b l Hl) as [H1 H2].
  destruct l as [|x l]; [done|]. injection Hm as <-.
  set (n := inject_Z (Z.of_nat (length (x :: l)))) in *.
  assert (0 < n) as Hn.
  { subst n. change 0 with (inject_Z 0). rewrite <- Zlt_Qlt. simpl. lia. }
  split.
  - apply Qle_shift_div_l; [done|]. exact H1.
  - apply Qle_shift_div_r; [done|]. exact H2.
Qed.

Lemma Forall_window {A} (P : A -> Prop) (w p : nat) (l : list A) :
  Forall P l -> Forall P (window w p l).
Proof. intros Hl. unfold window. by apply Forall_drop, Forall_take. Qed.

Lemma window_first {A} (x : A) (l : list A) : window 7 0 (x :: l) = [x].
Proof. done. Qed.

(** Every row of the result is a row of [employee_rows] on the sorted
    rows of its employee. *)
Lemma engineer_features_position (df : list Raw) (r : Row) :
  r ∈ engineer_features df ->
  let g := stable_sort key_leb
             (index_row <$> filter (fun x => employee_id x = row_employee r) df) in
  exists p, employee_rows g !! p = Some r /\
    Forall (fun a => exists x, x ∈ df /\ employee_id x = row_employee r
                               /\ a = index_row x) g.
Proof.
  intros Hr g.
  assert (r ∈ filter (fun r' => row_employee r' = row_employee r)
                     (engineer_features df)) as Hin
    by (by apply list_elem_of_filter).
  rewrite engineer_features_employee in Hin.
  apply list_elem_of_lookup in Hin as [p Hp]. exists p. split; [done|].
  subst g. rewrite stable_sort_perm.
  rewrite Forall_fmap. apply Forall_forall.
  intros x [Hx1 Hx2]%list_elem_of_filter. by exists x.
Qed.

Lemma employee_rows_lookup (g : list Indexed) (p : nat) (r : Row) :
  employee_rows g !! p = Some r ->
  exists a, g !! p = Some a /\
    r = make_row (mean (window 7 p (workload_index <$> g)))
                 (mean (window 7 p (wellness_index <$> g)))
                 (Some (default 0 (std (window 7 p
                                    ((fun r => sleep_hours (raw r)) <$> g)))))
                 a.
Proof.
  unfold employee_rows. rewrite list_lookup_imap.
  destruct (g !! p) as [a|]; [|done]. intros [= <-]. by exists a.
Qed.

Lemma mean_singleton_round (x : Q) (d : nat) :
  (fun v => np_round v d) <$> mean [x] = Some (np_round x d).
Proof.
  simpl. f_equal. apply np_round_comp. unfold Qsum. simpl. field.
Qed.

(** X3.  The three rolling columns of every row hold a number, never NaN.
    On the first row of an employee the two averages are the indices of
    that very row and the sleep variance is 0. *)
Theorem rolling_columns_defined (df : list Raw) (r : Row) :
  r ∈ engineer_features df ->
  exists aw al sv,
    avg_workload_7d r = Some aw /\ avg_wellness_7d r = Some al /\
    sleep_variance_7d r = Some sv /\
    (head (filter (fun r' => row_employee r' = row_employee r)
                  (engineer_features df)) = Some r ->
     aw = workload_index (base r) /\ al = wellness_index (base r) /\ sv == 0).
Proof.
  intros Hr.
  destruct (engineer_features_position df r Hr) as (p & Hp & Hg).
  rewrite engineer_features_employee.
  set (g := stable_sort key_leb _) in *.
  apply employee_rows_lookup in Hp as (a & Ha & Hshape).
  assert ((p < length g)%nat) as Hlt by (by eapply lookup_lt_Some).
  destruct (mean_is_Some (window 7 p (workload_index <$> g))) as [mw Hmw].
  { apply window_nonempty; [lia|]. by rewrite length_fmap. }
  destruct (mean_is_Some (window 7 p (wellness_index <$> g))) as [ml Hml].
  { apply window_nonempty; [lia|]. by rewrite length_fmap. }
  rewrite Hmw, Hml in Hshape. clear Hmw Hml.
  set (v := default 0 (std _)) in Hshape. clearbody v.
  exists (np_round mw 2), (np_round ml 2), (np_round v 2).
  split_and!; [by rewrite Hshape..|].
  rewrite head_lookup. intros (a0 & Ha0 & H0)%employee_rows_lookup.
  clearbody g. destruct g as [|b g']; [done|]. injection Ha0 as ->.
  rewrite !fmap_cons, !window_first in H0.
  assert (exists x, a0 = index_row x) as [x ->].
  { apply Forall_cons in Hg as [(x & _ & _ & ->) _]. by exists x. }
  pose proof (mean_singleton_round (workload_index (index_row x)) 2) as Ew.
  pose proof (mean_singleton_round (wellness_index (index_row x)) 2) as El.
  assert (avg_workload_7d r = Some (workload_index (index_row x))) as Haw.
  { rewrite H0. cbn [avg_workload_7d make_row]. rewrite Ew. f_equal.
    apply np_round_idempotent. }
  assert (avg_wellness_7d r = Some (wellness_index (index_row x))) as Hal.
  { rewrite H0. cbn [avg_wellness_7d make_row]. rewrite El. f_equal.
    apply np_round_idempotent. }
  assert (sleep_variance_7d r = Some (np_round 0 2)) as Hsv by (by rewrite H0).
  assert (base r = index_row x) as Hbase by (by rewrite H0).
  rewrite Hbase. rewrite Hshape in Haw, Hal, Hsv.
  cbn [avg_workload_7d avg_wellness_7d sleep_variance_7d make_row fmap option_fmap option_map] in Haw, Hal, Hsv.
  apply (inj Some) in Haw, Hal, Hsv. rewrite Haw, Hal, Hsv.
  split_and!; [done..|]. vm_compute. reflexivity.
Qed.


End TableFacts.

(** ** The per-row indices *)

Lemma np_round_unit_interval (v : Q) (d : nat) :
  0 <= v <= 1 -> 0 <= np_round v d <= 1.
Proof.
  intros [H0 H1]. split.
  - by apply (np_round_lower 0).
  - by apply (np_round_upper 1).
Qed.

Lemma wellness_index_of_range (x : Raw) :
  0 <= sleep_hours x -> 0 <= stress_score x <= 1 ->
  0 <= wellness_index_of x <= 1.
Proof.
  intros Hs Hst. unfold wellness_index_of, np_where.
  apply np_round_unit_interval.
  destruct (Qle_bool 7 (sleep_hours x)) eqn:E; [lra|].
  assert (sleep_hours x < 7) as Hlt.
  { apply Qnot_le_lt. rewrite <- Qle_bool_iff. congruence. }
  unfold Qdiv. change (/ 7) with (1 # 7). lra.
Qed.



(** ** Employee ids *)

Lemma pretty_N_go_first (x : N) (s : string) :
  (0 < x)%N ->
  exists c rest, pretty_N_go x s = String c rest /\ c <> "0"%char.
Proof.
  revert s. induction (N.lt_wf_0 x) as [x _ IH]; intros s Hx.
  rewrite pretty_N_go_step by done.
  destruct (decide (x `div` 10 = 0)%N) as [Hd|Hd].
  - rewrite Hd, pretty_N_go_0. do 2 eexists. split; [done|].
    apply N.div_small_iff in Hd; [|done].
    rewrite N.mod_small by done.
    assert (x = 1 \/ x = 2 \/ x = 3 \/ x = 4 \/ x = 5 \/ x = 6
            \/ x = 7 \/ x = 8 \/ x = 9)%N as Hc by lia.
    destruct Hc as [->|[->|[->|[->|[->|[->|[->|[->| ->]]]]]]]]; done.
  - apply IH; [apply N.div_lt; lia|by apply N.neq_0_lt_0].
Qed.

Lemma pretty_nat_first (i : nat) :
  pretty i = "0"%string \/
  exists c rest, pretty i = String c rest /\ c <> "0"%char.
Proof.
  unfold pretty, pretty_nat, pretty, pretty_N.
  case_decide; [by left|right]. apply pretty_N_go_first. lia.
Qed.

Lemma zeros_S k : zeros (S k) = String "0" (zeros k).
Proof.
  unfold zeros. destruct k; [done|].
  change (replicate (S (S k)) "0"%string)
    with ("0"%string :: replicate (S k) "0"%string).
  done.
Qed.

Lemma length_zeros k : String.length (zeros k) = k.
Proof.
  induction k as [|k IH]; [done|]. rewrite zeros_S. simpl. by rewrite IH.
Qed.

Lemma append_cons (c : ascii) (s t : string) :
  String c s +:+ t = String c (s +:+ t).
Proof. done. Qed.

Lemma string_app_length (s t : string) :
  String.length (s +:+ t) = (String.length s + String.length t)%nat.
Proof.
  induction s as [|c s IH]; [done|]. rewrite append_cons. simpl. by rewrite IH.
Qed.

Lemma string_app_inv_length (s s' t t' : string) :
  String.length s = String.length s' -> s +:+ t = s' +:+ t' -> t = t'.
Proof.
  revert s'. induction s as [|c s IH]; intros [|c' s']; try done.
  rewrite !append_cons. simpl. intros [= Hlen] [= _ Happ]. by eapply IH.
Qed.

Lemma zeros_add (a k : nat) : zeros (a + k) = zeros a +:+ zeros k.
Proof.
  induction a as [|a IH]; [done|].
  change (S a + k)%nat with (S (a + k)). rewrite !zeros_S, IH. done.
Qed.

Lemma string_app_assoc (s t u : string) : (s +:+ t) +:+ u = s +:+ (t +:+ u).
Proof.
  induction s as [|c s IH]; [done|]. rewrite !append_cons. by rewrite IH.
Qed.

(** A decimal numeral other than "0" has no leading zero. *)
Lemma pretty_no_leading_zero (i : nat) (k : nat) (t : string) :
  pretty i = zeros (S k) +:+ t -> t = ""%string /\ k = 0%nat.
Proof.
  rewrite zeros_S, append_cons.
  destruct (pretty_nat_first i) as [->|(c & rest & -> & Hc)].
  - intros [= Hz]. destruct k; [|by rewrite zeros_S in Hz].
    simpl in Hz. by subst.
  - by intros [= -> _].
Qed.

Lemma pretty_nonempty (i : nat) : String.length (pretty i) <> 0%nat.
Proof.
  by destruct (pretty_nat_first i) as [->|(c & rest & -> & _)].
Qed.

Lemma pad3_zeros (i : nat) :
  pad3 i = zeros (3 - String.length (pretty i)) +:+ pretty i.
Proof. done. Qed.

Lemma pad3_inj_lt (s t : string) (i : nat) :
  s = pretty i -> String.length t <> 0%nat ->
  (3 - String.length s < 3 - String.length t)%nat ->
  zeros (3 - String.length s) +:+ s = zeros (3 - String.length t) +:+ t ->
  False.
Proof.
  intros Hs Ht Hlt Heq.
  set (a := (3 - String.length s)%nat) in *.
  set (b := (3 - String.length t)%nat) in *.
  replace b with (a + S (b - a - 1))%nat in Heq by lia.
  rewrite zeros_add, string_app_assoc in Heq.
  apply string_app_inv_length in Heq; [|done].
  rewrite Hs in Heq. apply pretty_no_leading_zero in Heq as [-> _]. done.
Qed.

(** [f'{i:03d}'] gives different strings for different numbers. *)
Lemma pad3_inj (i j : nat) : pad3 i = pad3 j -> i = j.
Proof.
  rewrite !pad3_zeros. intros Heq.
  pose proof (pretty_nonempty i) as Hi. pose proof (pretty_nonempty j) as Hj.
  assert (String.length (zeros (3 - String.length (pretty i)) +:+ pretty i)
          = String.length (zeros (3 - String.length (pretty j)) +:+ pretty j))
    as Hlen by (by rewrite Heq).
  rewrite !string_app_length, !length_zeros in Hlen.
  destruct (lt_eq_lt_dec (3 - String.length (pretty i))
                         (3 - String.length (pretty j))) as [[Hlt|Heqn]|Hgt].
  - exfalso. by eapply (pad3_inj_lt (pretty i) (pretty j) i).
  - apply (inj pretty). rewrite Heqn in Heq.
    by eapply string_app_inv_length.
  - exfalso. by eapply (pad3_inj_lt (pretty j) (pretty i) j).
Qed.

(** ** The generator *)

Lemma py_max_lower a b : a <= py_max a b /\ b <= py_max a b.
Proof.
  unfold py_max. destruct (Qltb a b) eqn:E.
  - apply Qltb_lt in E. lra.
  - apply Qltb_ge in E. lra.
Qed.

Lemma py_max_upper a b c : a <= c -> b <= c -> py_max a b <= c.
Proof. unfold py_max. by destruct (Qltb a b). Qed.

Lemma py_min_upper a b : py_min a b <= a /\ py_min a b <= b.
Proof.
  unfold py_min. destruct (Qltb b a) eqn:E.
  - apply Qltb_lt in E. lra.
  - apply Qltb_ge in E. lra.
Qed.

Lemma py_min_lower a b c : c <= a -> c <= b -> c <= py_min a b.
Proof. unfold py_min. by destruct (Qltb b a). Qed.

Lemma for_each_spec {S A B} (f : A -> M S B) (P : A -> B -> Prop) (l : list A) :
  (forall x s, exists s' y, f x s = (s', Ok y) /\ P x y) ->
  forall s, exists s' ys, for_each f l s = (s', Ok ys) /\ Forall2 P l ys.
Proof.
  intros Hf. induction l as [|x l IH]; intros s; simpl.
  - by exists s, [].
  - destruct (Hf x s) as (s1 & y & Hy & HP).
    destruct (IH s1) as (s2 & ys & Hys & HPs).
    exists s2, (y :: ys). split; [|by constructor].
    rewrite (bind_Ok _ _ _ _ _ Hy), (bind_Ok _ _ _ _ _ Hys). done.
Qed.

Lemma fmap_concat {A B} (f : A -> B) (ls : list (list A)) :
  f <$> concat ls = concat ((fun l : list A => f <$> l) <$> ls).
Proof.
  induction ls as [|l ls IH]; [done|]. simpl. by rewrite fmap_app, IH.
Qed.

Lemma elem_of_concat {A} (x : A) (ls : list (list A)) :
  x ∈ concat ls <-> exists l, x ∈ l /\ l ∈ ls.
Proof.
  induction ls as [|l ls IH]; simpl.
  - split; [by intros ?%elem_of_nil|]. by intros (l & _ & ?%elem_of_nil).
  - rewrite elem_of_app, IH. split.
    + intros [Hx|(l' & Hx & Hl')].
      * exists l. split; [done|left].
      * exists l'. split; [done|by right].
    + intros (l' & Hx & [->|Hl']%elem_of_cons); [by left|].
      right. by exists l'.
Qed.

Lemma Forall_concat_2 {A} (P : A -> Prop) (ls : list (list A)) :
  Forall (Forall P) ls -> Forall P (concat ls).
Proof.
  induction 1; simpl; [constructor|]. by apply Forall_app.
Qed.

Lemma concat_filter_spec {A B} (P : A -> Prop) `{!forall x, Decision (P x)}
    (g : A -> B) (l : list A) (ys : list (list B)) :
  Forall2 (fun x y => y = if decide (P x) then [g x] else []) l ys ->
  concat ys = g <$> filter P l.
Proof.
  induction 1 as [|x y l ys -> _ IH]; [done|].
  rewrite filter_cons. simpl. rewrite IH. by destruct (decide (P x)).
Qed.

(** *** The merge *)

Lemma merge_empty (daily : list Daily) (employees : list Employee) :
  daily = [] \/ employees = [] ->
  merge daily employees = Raise (KeyError "employee_id").
Proof. intros [->| ->]; [done|]. by destruct daily. Qed.

Lemma merge_nonempty (daily : list Daily) (employees : list Employee) :
  daily <> [] -> employees <> [] ->
  merge daily employees = Ok (inner_join daily employees).
Proof. by destruct daily, employees. Qed.

Lemma filter_none {A} (P : A -> Prop) `{!forall x, Decision (P x)} (l : list A) :
  Forall (fun x => ~ P x) l -> filter P l = [].
Proof.
  induction 1 as [|x l Hx _ IH]; [done|]. by rewrite filter_cons_False.
Qed.

Lemma filter_all {A} (P : A -> Prop) `{!forall x, Decision (P x)} (l : list A) :
  Forall P l -> filter P l = l.
Proof.
  induction 1 as [|x l Hx _ IH]; [done|]. by rewrite filter_cons_True, IH.
Qed.

Lemma filter_unique_id (employees : list Employee) (e0 : Employee) :
  NoDup (emp_employee_id <$> employees) -> e0 ∈ employees ->
  filter (fun e => emp_employee_id e = emp_employee_id e0) employees = [e0].
Proof.
  induction employees as [|e l IH]; [by intros _ ?%elem_of_nil|].
  rewrite fmap_cons, NoDup_cons. intros [Hnot Hnd] Hin.
  rewrite filter_cons.
  destruct (decide (emp_employee_id e = emp_employee_id e0)) as [He|He].
  - apply elem_of_cons in Hin as [->|Hin].
    + f_equal. apply filter_none, Forall_forall. intros e' He' Heq.
      apply Hnot. rewrite <- Heq. by apply list_elem_of_fmap_2.
    + exfalso. apply Hnot. rewrite He. by apply list_elem_of_fmap_2.
  - apply elem_of_cons in Hin as [->|Hin]; [done|]. by apply IH.
Qed.

Lemma inner_join_cons d daily employees :
  inner_join (d :: daily) employees
  = ((fun e => joined d e)
       <$> filter (fun e => emp_employee_id e = day_employee_id d) employees)
    ++ inner_join daily employees.
Proof.
  unfold inner_join. rewrite bind_cons. f_equal.
  all: induction (filter _ employees) as [|e l IH]; [done|].
  all: rewrite bind_cons, IH; done.
Qed.

Lemma inner_join_filter (k : string) daily employees :
  filter (fun x => employee_id x = k) (inner_join daily employees)
  = inner_join (filter (fun d => day_employee_id d = k) daily) employees.
Proof.
  induction daily as [|d daily IH]; [done|].
  rewrite inner_join_cons, filter_app, IH, filter_cons.
  destruct (decide (day_employee_id d = k)) as [Hd|Hd].
  - rewrite inner_join_cons. f_equal. apply filter_all.
    rewrite Forall_fmap. by apply Forall_forall.
  - rewrite filter_none; [done|].
    rewrite Forall_fmap. by apply Forall_forall.
Qed.

Lemma inner_join_unique (e0 : Employee) daily employees :
  NoDup (emp_employee_id <$> employees) -> e0 ∈ employees ->
  Forall (fun d => day_employee_id d = emp_employee_id e0) daily ->
  inner_join daily employees = (fun d => joined d e0) <$> daily.
Proof.
  intros Hnd Hin. induction 1 as [|d daily Hd _ IH]; [done|].
  rewrite inner_join_cons, IH, Hd, filter_unique_id by done. done.
Qed.

(** The daily rows of the [j]-th employee inside the whole daily table. *)
Lemma concat_filter_employee (employees : list Employee)
    (daily_data : list (list Daily)) (j : nat) (e0 : Employee) (y0 : list Daily) :
  NoDup (emp_employee_id <$> employees) ->
  Forall2 (fun emp y =>
             Forall (fun d => day_employee_id d = emp_employee_id emp) y)
          employees daily_data ->
  employees !! j = Some e0 -> daily_data !! j = Some y0 ->
  filter (fun d => day_employee_id d = emp_employee_id e0) (concat daily_data) = y0.
Proof.
  intros Hnd Hall. revert j.
  induction Hall as [|emp y employees daily_data Hy Hall IH]; intros j; [done|].
  rewrite fmap_cons, NoDup_cons in Hnd. destruct Hnd as [Hnot Hnd].
  simpl. rewrite filter_app. destruct j as [|j]; simpl.
  - intros [= ->] [= ->]. rewrite filter_all by done.
    rewrite filter_none; [by rewrite app_nil_r|].
    apply Forall_concat_2. eapply Forall2_Forall_r; [exact Hall|].
    apply Forall_forall. intros emp Hemp y Hys.
    eapply Forall_impl; [exact Hys|]. intros d -> Heq.
    apply Hnot. rewrite <- Heq. by apply list_elem_of_fmap_2.
  - intros He0 Hy0. rewrite filter_none; [by eapply IH|].
    eapply Forall_impl; [exact Hy|]. intros d -> Heq.
    apply Hnot. rewrite Heq. apply list_elem_of_fmap_2.
    by eapply list_elem_of_lookup_2.
Qed.

Lemma elem_of_inner_join (x : Raw) daily employees :
  x ∈ inner_join daily employees ->
  exists d e, d ∈ daily /\ e ∈ employees /\
    emp_employee_id e = day_employee_id d /\ x = joined d e.
Proof.
  induction daily as [|d daily IH]; [by intros ?%elem_of_nil|].
  rewrite inner_join_cons, elem_of_app. intros [Hx|Hx].
  - apply list_elem_of_fmap in Hx as (e & -> & [He Hin]%list_elem_of_filter).
    exists d, e. split_and!; [left|done..].
  - destruct (IH Hx) as (d' & e & ? & ? & ? & ?).
    exists d', e. split_and!; [by right|done..].
Qed.

Lemma length_inner_join daily employees :
  NoDup (emp_employee_id <$> employees) ->
  Forall (fun d => exists e, e ∈ employees /\
                     emp_employee_id e = day_employee_id d) daily ->
  length (inner_join daily employees) = length daily.
Proof.
  intros Hnd. induction 1 as [|d daily (e & He & Hid) _ IH]; [done|].
  rewrite inner_join_cons, length_app, IH, length_fmap.
  by rewrite <- Hid, filter_unique_id.
Qed.

Lemma length_concat_const {A} (w : nat) (ls : list (list A)) :
  Forall (fun l => length l = w) ls -> length (concat ls) = (length ls * w)%nat.
Proof.
  induction 1 as [|l ls Hl _ IH]; [done|].
  simpl. rewrite length_app, IH, Hl. done.
Qed.

Lemma stable_sort_of_sorted {A} (leb : A -> A -> bool) (l : list A) :
  StronglySorted (fun a b => leb a b = true) l -> stable_sort leb l = l.
Proof.
  induction 1 as [|x l _ IH Hx]; [done|].
  unfold stable_sort in *. simpl. rewrite IH.
  destruct l as [|y l]; [done|]. simpl.
  apply Forall_cons in Hx as [-> _]. done.
Qed.

Lemma weekdays_sorted (start : Z) (num_days : nat) :
  StronglySorted Z.le
    ((fun k => (start + Z.of_nat k)%Z) <$> weekdays start num_days).
Proof.
  unfold weekdays. generalize 0%nat.
  induction num_days as [|n IH]; intros m; [constructor|].
  simpl. rewrite filter_cons. case_decide; [|apply IH].
  rewrite fmap_cons. constructor; [apply IH|].
  rewrite Forall_fmap. apply Forall_forall.
  intros k [_ Hk%elem_of_seq]%list_elem_of_filter. simpl. lia.
Qed.

Lemma elem_of_weekdays (start : Z) (num_days k : nat) :
  k ∈ weekdays start num_days <->
  (k < num_days)%nat /\ (weekday (start + Z.of_nat k) < 5)%Z.
Proof.
  unfold weekdays. rewrite list_elem_of_filter, elem_of_seq.
  split; intros [? ?]; split; try done; lia.
Qed.

(** Three days in a row are never all Saturdays and Sundays. *)
Lemma weekdays_nonempty (start : Z) (num_days : nat) :
  (3 <= num_days)%nat -> weekdays start num_days <> [].
Proof.
  intros Hd Hnil.
  assert (forall k, (k < 3)%nat -> ~ (weekday (start + Z.of_nat k) < 5)%Z) as Hw.
  { intros k Hk Hwk.
    assert (k ∈ weekdays start num_days) as Hin
      by (apply elem_of_weekdays; split; [lia|done]).
    rewrite Hnil in Hin. by apply elem_of_nil in Hin. }
  pose proof (Hw 0%nat ltac:(lia)) as H0. pose proof (Hw 1%nat ltac:(lia)) as H1.
  pose proof (Hw 2%nat ltac:(lia)) as H2. unfold weekday in *.
  clear Hw Hnil. simpl Z.of_nat in *. Z.div_mod_to_equations. lia.
Qed.

Lemma sorted_employee_days (k : string) (e0 : Employee) (y : list Daily) :
  Forall (fun d => day_employee_id d = k) y ->
  StronglySorted Z.le (day_date <$> y) ->
  StronglySorted (fun a b => key_leb a b = true)
    (index_row <$> ((fun d => joined d e0) <$> y)).
Proof.
  induction 1 as [|d y Hd Hy IH]; csimpl; intros Hs; [constructor|].
  apply StronglySorted_cons in Hs as [Hle Hs].
  constructor; [by apply IH|].
  rewrite !Forall_fmap in *. apply Forall_forall. intros d' Hd'. simpl.
  apply key_leb_spec. right. simpl. split.
  - eapply Forall_forall in Hy; [|exact Hd']. congruence.
  - by eapply Forall_forall in Hle.
Qed.

Section GenerateFacts.
Context `{!NumPy} `{!RandomState}.

Lemma draw_run {A} (f : rng -> A * rng) (s : rng) :
  draw f s = ((f s).2, Ok (f s).1).
Proof. unfold draw. by destruct (f s). Qed.

Lemma fmap_draw_run {A B} (g : A -> B) (f : rng -> A * rng) (s : rng) :
  (g <$> draw f) s = ((f s).2, Ok (g (f s).1)).
Proof. unfold fmap, M_fmap. by rewrite draw_run. Qed.

Lemma make_employee_spec (i : nat) (s : rng) :
  exists s' e, make_employee i s = (s', Ok e) /\
    emp_employee_id e = "EMP" +:+ pad3 i /\
    emp_name e = "Employee_" +:+ pretty i.
Proof.
  unfold make_employee.
  repeat (erewrite bind_Ok by apply draw_run).
  by do 2 eexists.
Qed.

Lemma make_day_spec (start : Z) (emp : Employee) (k : nat) (s : rng) :
  exists s' ds, make_day start emp k s = (s', Ok ds) /\
    Forall (fun d => day_employee_id d = emp_employee_id emp /\ day_in_range d) ds /\
    day_date <$> ds = if decide (weekday (start + Z.of_nat k) < 5)%Z
                      then [(start + Z.of_nat k)%Z] else [].
Proof.
  unfold make_day.
  destruct (Z.ltb_spec (weekday (start + Z.of_nat k)) 5) as [Hw|Hw].
  - repeat (erewrite bind_Ok by first [apply draw_run | apply fmap_draw_run]).
    do 2 eexists. split; [done|]. rewrite decide_True by done.
    split; [|done]. constructor; [|done]. split; [done|].
    unfold day_in_range. simpl. split_and!.
    + apply (np_round_lower 4), py_max_lower.
    + apply (np_round_upper 14), py_max_upper; [done|]. apply py_min_upper.
    + apply (np_round_lower 1), py_max_lower.
    + apply (np_round_lower 4), py_max_lower.
    + apply (np_round_upper 10), py_max_upper; [done|]. apply py_min_upper.
    + apply (np_round_lower 0), py_min_lower; [done|]. apply py_max_lower.
    + apply (np_round_upper 1), py_min_upper.
    + apply (np_round_lower 0), py_max_lower.
  - do 2 eexists. split; [done|]. rewrite decide_False by lia. done.
Qed.

Lemma employee_days_spec (start : Z) (num_days : nat) (emp : Employee) (s : rng) :
  exists s' y,
    (days ← for_each (make_day start emp) (seq 0 num_days); mret (concat days)) s
    = (s', Ok y) /\
    Forall (fun d => day_employee_id d = emp_employee_id emp /\ day_in_range d) y /\
    day_date <$> y = (fun k => (start + Z.of_nat k)%Z) <$> weekdays start num_days.
Proof.
  destruct (for_each_spec (make_day start emp)
              (fun k ds =>
                 Forall (fun d => day_employee_id d = emp_employee_id emp
                                  /\ day_in_range d) ds /\
                 day_date <$> ds = if decide (weekday (start + Z.of_nat k) < 5)%Z
                                   then [(start + Z.of_nat k)%Z] else [])
              (seq 0 num_days) (make_day_spec start emp) s)
    as (s' & days & Hrun & Hdays).
  exists s', (concat days). split; [by rewrite (bind_Ok _ _ _ _ _ Hrun)|].
  split.
  - apply Forall_concat_2. eapply Forall2_Forall_r; [exact Hdays|].
    apply Forall_forall. by intros k _ ds [? _].
  - rewrite fmap_concat. unfold weekdays.
    apply (concat_filter_spec (fun k => (weekday (start + Z.of_nat k) < 5)%Z)).
    apply Forall2_fmap_r. eapply Forall2_impl; [exact Hdays|].
    by intros k ds [_ ?].
Qed.

(** What a call of the generator does, up to the merge. *)
Lemma generate_run (num_employees num_days : nat) (now : Z) (s : rng) :
  let start := (now - Z.of_nat num_days)%Z in
  exists s' employees daily_data,
    Forall2 (fun i e => emp_employee_id e = "EMP" +:+ pad3 i /\
                        emp_name e = "Employee_" +:+ pretty i)
            (seq 0 num_employees) employees /\
    Forall2 (fun emp y =>
               Forall (fun d => day_employee_id d = emp_employee_id emp
                                /\ day_in_range d) y /\
               day_date <$> y
               = (fun k => (start + Z.of_nat k)%Z) <$> weekdays start num_days)
            employees daily_data /\
    generate_employee_data num_employees num_days now s
    = (s', match merge (concat daily_data) employees with
           | Ok features_df => Ok (engineer_features features_df)
           | Raise e => Raise e
           end).
Proof.
  intros start. unfold generate_employee_data.
  destruct (for_each_spec make_employee _ (seq 0 num_employees)
              make_employee_spec (seed 42)) as (s1 & employees & Hemp & Hemps).
  destruct (for_each_spec _ _ employees
              (employee_days_spec start num_days) s1)
    as (s2 & daily_data & Hday & Hdays).
  exists s2, employees, daily_data. split; [done|]. split; [done|].
  erewrite bind_Ok by reflexivity.
  rewrite (bind_Ok _ _ _ _ _ Hemp).
  fold start. rewrite (bind_Ok _ _ _ _ _ Hday).
  unfold mbind, M_bind, lift, mret, M_ret.
  by destruct (merge _ _).
Qed.

Lemma employee_ids_NoDup (num_employees : nat) (employees : list Employee) :
  Forall2 (fun i e => emp_employee_id e = "EMP" +:+ pad3 i /\
                      emp_name e = "Employee_" +:+ pretty i)
          (seq 0 num_employees) employees ->
  NoDup (emp_employee_id <$> employees).
Proof.
  intros Hemps.
  assert (emp_employee_id <$> employees
          = (fun i => "EMP" +:+ pad3 i) <$> seq 0 num_employees) as ->.
  { symmetry. apply list_eq_Forall2, Forall2_fmap.
    eapply Forall2_impl; [exact Hemps|]. by intros i e [-> _]. }
  apply NoDup_fmap_2; [|apply NoDup_seq].
  intros i j Hij. apply pad3_inj. by apply (inj (String.append "EMP")) in Hij.
Qed.

(** What a call of the generator that returns has built. *)
Lemma generate_Ok (num_employees num_days : nat) (now : Z) (s s' : rng)
    (t : list Row) :
  generate_employee_data num_employees num_days now s = (s', Ok t) ->
  let start := (now - Z.of_nat num_days)%Z in
  exists employees daily_data,
    Forall2 (fun i e => emp_employee_id e = "EMP" +:+ pad3 i /\
                        emp_name e = "Employee_" +:+ pretty i)
            (seq 0 num_employees) employees /\
    Forall2 (fun emp y =>
               Forall (fun d => day_employee_id d = emp_employee_id emp
                                /\ day_in_range d) y /\
               day_date <$> y
               = (fun k => (start + Z.of_nat k)%Z) <$> weekdays start num_days)
            employees daily_data /\
    NoDup (emp_employee_id <$> employees) /\
    t = engineer_features (inner_join (concat daily_data) employees).
Proof.
  intros Hrun start.
  destruct (generate_run num_employees num_days now s)
    as (s1 & employees & daily_data & Hemps & Hdays & Hrun').
  fold start in Hdays. rewrite Hrun in Hrun'.
  exists employees, daily_data. split_and!; [done..| |].
  { by eapply employee_ids_NoDup. }
  destruct (decide (concat daily_data = [])) as [Hd|Hd].
  { by rewrite merge_empty in Hrun' by auto. }
  destruct (decide (employees = [])) as [He|He].
  { by rewrite merge_empty in Hrun' by auto. }
  rewrite merge_nonempty in Hrun' by done. congruence.
Qed.

(** Where a row of the generated table comes from. *)
Lemma generate_row_origin (num_employees num_days : nat) (now : Z) (s s' : rng)
    (t : list Row) (r : Row) :
  generate_employee_data num_employees num_days now s = (s', Ok t) ->
  r ∈ t ->
  let start := (now - Z.of_nat num_days)%Z in
  exists d e i k,
    base r = index_row (joined d e) /\
    (i < num_employees)%nat /\
    emp_employee_id e = "EMP" +:+ pad3 i /\
    emp_name e = "Employee_" +:+ pretty i /\
    day_employee_id d = emp_employee_id e /\
    day_in_range d /\
    k ∈ weekdays start num_days /\ day_date d = (start + Z.of_nat k)%Z.
Proof.
  intros Hrun Hr start.
  destruct (generate_Ok _ _ _ _ _ _ Hrun)
    as (employees & daily_data & Hemps & Hdays & Hnd & ->).
  fold start in Hdays.
  destruct (engineer_features_rows
              (inner_join (concat daily_data) employees)) as (Hperm & _ & Hbase).
  assert (raw (base r) ∈ inner_join (concat daily_data) employees) as Hin.
  { rewrite <- Hperm. apply list_elem_of_fmap. by exists r. }
  apply elem_of_inner_join in Hin as (d & e & Hd & He & Hid & Hraw).
  eapply Forall_forall in Hbase; [|exact Hr]. cbv beta in Hbase.
  rewrite Hraw in Hbase.
  apply list_elem_of_lookup in He as [i Hi].
  destruct (Forall2_lookup_r _ _ _ _ _ Hemps Hi) as (i' & Hi' & Hid' & Hname).
  apply lookup_seq in Hi' as [-> Hlt]. simpl in *.
  apply elem_of_concat in Hd as (y & Hdy & Hy).
  apply list_elem_of_lookup in Hy as [j Hj].
  destruct (Forall2_lookup_r _ _ _ _ _ Hdays Hj) as (emp & _ & Hall & Hdates).
  eapply Forall_forall in Hall as [_ Hrange]; [|exact Hdy].
  assert (day_date d ∈ day_date <$> y) as Hdate
    by (apply list_elem_of_fmap; by exists d).
  rewrite Hdates in Hdate. apply list_elem_of_fmap in Hdate as (k & Hk & Hkin).
  exists d, e, i, k. by split_and!.
Qed.

(** X7.  Every row of the generated table is dated on a weekday inside the
    window of [num_days] days that ends the day before the call, and belongs
    to one of the employees [EMP000], [EMP001], ... numbered below
    [num_employees], whose name carries the same number. *)
Theorem generate_weekdays_only (num_employees num_days : nat) (now : Z)
    (s s' : rng) (t : list Row) (r : Row) :
  generate_employee_data num_employees num_days now s = (s', Ok t) ->
  r ∈ t ->
  (now - Z.of_nat num_days <= row_date r < now)%Z /\
  (weekday (row_date r) < 5)%Z /\
  exists i, (i < num_employees)%nat /\
    row_employee r = "EMP" +:+ pad3 i /\
    name (raw (base r)) = "Employee_" +:+ pretty i.
Proof.
  intros Hrun Hr.
  destruct (generate_row_origin _ _ _ _ _ _ _ Hrun Hr)
    as (d & e & i & k & Hbase & Hi & Hid & Hname & Hde & _ & Hk & Hdate).
  apply elem_of_weekdays in Hk as [Hk Hw].
  unfold row_date, row_employee. rewrite Hbase. simpl. rewrite Hdate.
  split_and!; [lia..|done|]. exists i. split_and!; [done|congruence|done].
Qed.


(** X9.  A call that returns gives every employee one row for each weekday
    of the window, in date order, so the table has as many rows as the
    number of employees times the number of weekdays in the window. *)
Theorem generate_rows_per_employee (num_employees num_days : nat) (now : Z)
    (s s' : rng) (t : list Row) :
  generate_employee_data num_employees num_days now s = (s', Ok t) ->
  let start := (now - Z.of_nat num_days)%Z in
  length t = (num_employees * length (weekdays start num_days))%nat /\
  (forall i, (i < num_employees)%nat ->
     row_date <$> filter (fun r => row_employee r = "EMP" +:+ pad3 i) t
     = (fun k => (start + Z.of_nat k)%Z) <$> weekdays start num_days).
Proof.
  intros Hrun start.
  destruct (generate_Ok _ _ _ _ _ _ Hrun)
    as (employees & daily_data & Hemps & Hdays & Hnd & ->).
  fold start in Hdays.
  assert (Forall2 (fun emp y =>
            Forall (fun d => day_employee_id d = emp_employee_id emp) y)
            employees daily_data) as Hids.
  { eapply Forall2_impl; [exact Hdays|]. intros emp y [Hy _].
    eapply Forall_impl; [exact Hy|]. by intros d [? _]. }
  split.
  - destruct (engineer_features_rows
                (inner_join (concat daily_data) employees)) as (_ & -> & _).
    rewrite length_inner_join; [|done|].
    + rewrite (length_concat_const (length (weekdays start num_days))).
      * apply Forall2_length in Hemps, Hdays.
        rewrite length_seq in Hemps. by rewrite <- Hdays, <- Hemps.
      * eapply Forall2_Forall_r; [exact Hdays|].
        apply Forall_forall. intros emp _ y [_ Hdates].
        apply (f_equal length) in Hdates. by rewrite !length_fmap in Hdates.
    + apply Forall_forall. intros d (y & Hdy & Hy)%elem_of_concat.
      apply list_elem_of_lookup in Hy as [j Hj].
      destruct (Forall2_lookup_r _ _ _ _ _ Hids Hj) as (emp & Hemp & Hall).
      exists emp. split; [by eapply list_elem_of_lookup_2|].
      symmetry. by eapply Forall_forall in Hall.
  - intros i Hi.
    destruct (Forall2_lookup_l _ (seq 0 num_employees) employees i i Hemps)
      as (e & He & Hid & _); [by apply lookup_seq|].
    destruct (Forall2_lookup_l _ _ _ _ _ Hdays He) as (y & Hy & Hall & Hdates).
    rewrite <- Hid, engineer_features_employee, inner_join_filter.
    rewrite (concat_filter_employee employees daily_data i e y) by done.
    rewrite (inner_join_unique e); [|done|by eapply list_elem_of_lookup_2|].
    2: { eapply Forall_impl; [exact Hall|]. by intros d [? _]. }
    rewrite stable_sort_of_sorted.
    + replace (row_date <$> employee_rows
                 (index_row <$> ((fun d => joined d e) <$> y)))
        with ((fun a => date (raw a)) <$>
                (base <$> employee_rows
                   (index_row <$> ((fun d => joined d e) <$> y))))
        by (by rewrite <- list_fmap_compose).
      rewrite employee_rows_base, <- Hdates, <- !list_fmap_compose. done.
    + apply (sorted_employee_days (emp_employee_id e)).
      * eapply Forall_impl; [exact Hall|]. by intros d [? _].
      * rewrite Hdates. apply weekdays_sorted.
Qed.


End GenerateFacts.

(** ** More on [predict] *)

Lemma setitem_Ok_nrows df col values df' :
  setitem df col values = Ok df' -> nrows df' = length values /\ df' <> [].
Proof.
  unfold setitem. destruct df as [|c df]; [by intros [= <-]|].
  destruct (Nat.eqb_spec (length values) (nrows (c :: df))) as [Hlen|]; [|done].
  intros [= <-]. simpl. destruct (String.eqb c.1 col); simpl; [done|].
  split; [by rewrite Hlen|done].
Qed.

Lemma setitem_Raise df col values e :
  setitem df col values = Raise e ->
  e = ValueError "Length of values does not match length of index".
Proof.
  unfold setitem. destruct df; [done|]. case_match; [done|]. by intros [= <-].
Qed.

Lemma setitem_same_length df col values :
  df <> [] -> nrows df = length values ->
  setitem df col values = Ok (replace_column df col values).
Proof.
  intros Hdf Hlen. unfold setitem. destruct df; [done|].
  by rewrite <- Hlen, Nat.eqb_refl.
Qed.

Lemma replace_column_present df col values :
  find_column df col = Some values -> replace_column df col values = df.
Proof.
  induction df as [|[c v] df IH]; [done|]. simpl.
  destruct (String.eqb c col) eqn:E.
  - apply String.eqb_eq in E as ->. by intros [= ->].
  - intros Hfind. by rewrite IH.
Qed.

Lemma getitems_ext df df' cols :
  (forall col, col ∈ cols -> find_column df' col = find_column df col) ->
  getitems df' cols = getitems df cols.
Proof.
  induction cols as [|c cols IH]; intros Hcols; [done|]. simpl.
  unfold getitem. rewrite Hcols by left. rewrite IH; [done|].
  intros col Hcol. apply Hcols. by right.
Qed.

Section PredictFacts.
Context `{!Sklearn}.

Lemma predict_Ok_inv (p : Predictor) (l l' : nat)
    (h h' : gmap nat (list (string * list Value))) :
  predict p l h = (h', Ok l') ->
  exists df X sc X_scaled rf predictions proba enc categories column,
    h !! l = Some df /\
    getitems df (feature_cols p) = Ok X /\
    scaler p = Some (Fitted sc) /\ ss_transform sc X = inr X_scaled /\
    model p = Some (Fitted rf) /\
    rf_predict rf X_scaled = inr predictions /\
    rf_predict_proba rf X_scaled = inr proba /\
    label_encoder p = Some (Fitted enc) /\
    le_inverse_transform enc predictions = inr categories /\
    setitem df "prediction_category" categories
    = Ok (replace_column df "prediction_category" categories) /\
    match index_of is_high (classes_ enc) with
    | Some i => exists c, proba_column i proba = Ok c /\ column = VNum <$> c
    | None =>
        column = replicate
                   (nrows (replace_column df "prediction_category" categories))
                   (VNum 0.0)
    end /\
    setitem (replace_column df "prediction_category" categories)
            "prediction_proba_high" column
    = Ok (replace_column (replace_column df "prediction_category" categories)
            "prediction_proba_high" column) /\
    h' = <[l := replace_column
                  (replace_column df "prediction_category" categories)
                  "prediction_proba_high" column]> h.
Proof.
  unfold predict, assign.
  unfold mbind, M_bind, lift, deref, fitted, raise, mret, M_ret, modify.
  intros Hrun.
  repeat (first [ rewrite lookup_insert_eq in Hrun
                | step_in Hrun ]; simpl in Hrun);
    simplify_eq.
  all: repeat match goal with
           | Hs : setitem _ _ _ = Ok ?x |- _ =>
               is_var x; pose proof (setitem_Ok _ _ _ _ Hs); subst x
           end.
  all: rewrite insert_insert_eq.
  all: do 10 eexists; split_and!; try done.
  all: match goal with Hi : index_of _ _ = _ |- _ => rewrite Hi end.
  - by eexists.
  - reflexivity.
Qed.

(** X11.  What a call of [predict] that returns has computed.  It returns
    only when the model, the scaler and the label encoder are all fitted
    and the table has every feature column.  The category column then holds
    the decoded predictions of the classifier on the scaled features; the
    probability column holds, for each row, the probability of the first
    class named High, or 0.0 on every row when the encoder knows no such
    class. *)
Theorem predict_columns (p : Predictor) (l l' : nat)
    (h h' : gmap nat (list (string * list Value))) :
  predict p l h = (h', Ok l') ->
  exists df df' X sc X_scaled rf predictions proba enc categories column,
    h !! l = Some df /\ h' !! l = Some df' /\
    getitems df (feature_cols p) = Ok X /\
    scaler p = Some (Fitted sc) /\ ss_transform sc X = inr X_scaled /\
    model p = Some (Fitted rf) /\
    rf_predict rf X_scaled = inr predictions /\
    rf_predict_proba rf X_scaled = inr proba /\
    label_encoder p = Some (Fitted enc) /\
    le_inverse_transform enc predictions = inr categories /\
    find_column df' "prediction_category" = Some categories /\
    find_column df' "prediction_proba_high" = Some column /\
    match index_of is_high (classes_ enc) with
    | Some i => exists c, mapM (fun row : list Q => row !! i) proba = Some c
                          /\ column = VNum <$> c
    | None => column = replicate (length categories) (VNum 0.0)
    end.
Proof.
  intros (df & X & sc & X_scaled & rf & predictions & proba & enc & categories
          & column & Hdf & HX & Hsc & Hss & Hrf & Hpred & Hproba & Henc & Hcat
          & Hset1 & Hcol & Hset2 & ->)%predict_Ok_inv.
  exists df. eexists. exists X, sc, X_scaled, rf, predictions, proba, enc,
    categories, column.
  split_and!; try done.
  - by rewrite lookup_insert_eq.
  - rewrite find_replace_column_other by done. apply find_replace_column_same.
  - apply find_replace_column_same.
  - destruct (index_of is_high (classes_ enc)) as [i|].
    + destruct Hcol as (c & Hc & ->). exists c. split; [|done].
      unfold proba_column in Hc. by destruct (mapM _ proba); simplify_eq.
    + apply setitem_Ok_nrows in Hset1 as [Hn _]. by rewrite Hn in Hcol.
Qed.


(** X13.  Scoring a table a second time changes nothing: when the two
    prediction columns are not among the feature columns, a call of
    [predict] on the table that an earlier call has scored returns and
    leaves every table as it is. *)
Theorem predict_twice (p : Predictor) (l l' : nat)
    (h h' : gmap nat (list (string * list Value))) :
  "prediction_category"%string ∉ feature_cols p ->
  "prediction_proba_high"%string ∉ feature_cols p ->
  predict p l h = (h', Ok l') ->
  predict p l h' = (h', Ok l).
Proof.
  intros Hpc Hpp
    (df & X & sc & X_scaled & rf & predictions & proba & enc & categories
     & column & Hdf & HX & Hsc & Hss & Hrf & Hpred & Hproba & Henc & Hcat
     & Hset1 & Hcol & Hset2 & ->)%predict_Ok_inv.
  set (df1 := replace_column df "prediction_category" categories) in *.
  set (df2 := replace_column df1 "prediction_proba_high" column) in *.
  destruct (setitem_Ok_nrows _ _ _ _ Hset1) as [Hn1 Hne1].
  destruct (setitem_Ok_nrows _ _ _ _ Hset2) as [Hn2 Hne2].
  assert (length column = length categories) as Hlen.
  { rewrite <- Hn1. unfold setitem in Hset2.
    destruct df1 as [|c1 d1] eqn:E1; [done|].
    destruct (Nat.eqb_spec (length column) (nrows (c1 :: d1))); done. }
  assert (find_column df2 "prediction_category" = Some categories) as Hf1.
  { subst df2 df1. rewrite find_replace_column_other by done.
    apply find_replace_column_same. }
  assert (find_column df2 "prediction_proba_high" = Some column) as Hf2
    by apply find_replace_column_same.
  assert (getitems df2 (feature_cols p) = Ok X) as HX2.
  { rewrite <- HX. apply getitems_ext. intros col Hin. subst df2 df1.
    rewrite !find_replace_column_other; [done|by intros ->..]. }
  assert (setitem df2 "prediction_category" categories = Ok df2) as Hs1.
  { rewrite setitem_same_length by (done || congruence).
    by rewrite replace_column_present. }
  assert (setitem df2 "prediction_proba_high" column = Ok df2) as Hs2.
  { rewrite setitem_same_length by done. by rewrite replace_column_present. }
  assert (nrows df2 = nrows df1) as Hrows by congruence.
  unfold predict, assign. rewrite Hrf.
  unfold mbind, M_bind, lift, deref, fitted, raise, mret, M_ret, modify.
  rewrite lookup_insert_eq, HX2, Hsc, sk_run, Hss.
  rewrite sk_run, Hpred, sk_run, Hproba, Henc, sk_run, Hcat.
  rewrite lookup_insert_eq, Hs1. rewrite insert_insert_eq.
  destruct (index_of is_high (classes_ enc)) as [i|].
  - destruct Hcol as (c & Hc & ->). rewrite Hc.
    rewrite lookup_insert_eq, Hs2. by rewrite insert_insert_eq.
  - rewrite !lookup_insert_eq. rewrite Hrows, <- Hcol, Hs2.
    by rewrite insert_insert_eq.
Qed.

End PredictFacts.

(** ** More on [save] and [load] *)

Section PathFacts.
Context `{!Sklearn}.


End PathFacts.

(** ** More on [train] *)

Lemma select_rows_nil_l {A} (c : list A) : select_rows [] c = [].
Proof. done. Qed.

Lemma select_rows_cons {A} (k : bool) (keep : list bool) (x : A) (c : list A) :
  select_rows (k :: keep) (x :: c)
  = if k then x :: select_rows keep c else select_rows keep c.
Proof.
  unfold select_rows. simpl. rewrite filter_cons. simpl.
  destruct k; by case_decide.
Qed.

Lemma length_select_rows_le {A} (keep : list bool) (c : list A) :
  (length (select_rows keep c) <= length (filter (fun k => k = true) keep))%nat.
Proof.
  revert c. induction keep as [|k keep IH]; intros [|x c];
    try (unfold select_rows; simpl; lia).
  rewrite select_rows_cons, filter_cons. specialize (IH c).
  destruct k; case_decide; simpl; try done; lia.
Qed.

Lemma select_rows_own {A} (f : A -> bool) (c : list A) :
  length (select_rows (f <$> c) c)
  = length (filter (fun k => k = true) (f <$> c))
  /\ Forall (fun v => f v = true) (select_rows (f <$> c) c).
Proof.
  induction c as [|x c [IH1 IH2]]; [by split|].
  rewrite fmap_cons, select_rows_cons, filter_cons.
  destruct (f x) eqn:E; case_decide; try done; simpl.
  split; [by rewrite IH1|]. by constructor.
Qed.

Lemma select_rows_all {A} (n : nat) (c : list A) :
  (length c <= n)%nat -> select_rows (replicate n true) c = c.
Proof.
  revert n. induction c as [|x c IH]; intros n Hn.
  - unfold select_rows. by destruct (replicate n true).
  - destruct n as [|n]; [simpl in Hn; lia|].
    simpl replicate. rewrite select_rows_cons, IH; [done|simpl in Hn; lia].
Qed.

Lemma fmap_all_true {A} (f : A -> bool) (l : list A) :
  Forall (fun v => f v = true) l -> f <$> l = replicate (length l) true.
Proof. induction 1 as [|x l Hx _ IH]; [done|]. csimpl. by rewrite Hx, IH. Qed.

Lemma find_column_fmap (g : list Value -> list Value)
    (df : list (string * list Value)) (col : string) :
  find_column (prod_map id g <$> df) col = g <$> find_column df col.
Proof.
  induction df as [|[c v] df IH]; [done|]. csimpl.
  by destruct (String.eqb c col).
Qed.

(** Dropping the rows with NaN a second time drops nothing. *)
Lemma dropna_idempotent (df df' : list (string * list Value)) (col : string) :
  dropna df col = Ok df' -> dropna df' col = Ok df'.
Proof.
  unfold dropna, getitem.
  destruct (find_column df col) as [c0|] eqn:Hc0; [|done].
  intros [= <-]. rewrite find_column_fmap, Hc0. csimpl. f_equal.
  set (f := fun v => negb (is_nan v)).
  destruct (select_rows_own f c0) as [Hlen Hall].
  rewrite (fmap_all_true f _ Hall).
  rewrite <- list_fmap_compose. apply list_fmap_ext.
  intros i [name c] _. unfold prod_map. simpl. f_equal.
  apply select_rows_all. rewrite Hlen. apply length_select_rows_le.
Qed.

Section TrainRows.
Context `{!Sklearn}.

(** X15.  Training does not see the rows whose 7-day workload average is
    NaN: a call of [train] on a table and a call on the same table without
    these rows end in the same way, with the same encoder, scaler and
    model or with the same error. *)
Theorem train_ignores_nan_rows (features_df training_df : list (string * list Value))
    (p : Predictor) :
  dropna features_df "avg_workload_7d" = Ok training_df ->
  train training_df p = train features_df p.
Proof.
  intros Hdrop. pose proof (dropna_idempotent _ _ _ Hdrop) as Hagain.
  unfold train.
  rewrite (bind_Ok (lift (dropna features_df "avg_workload_7d")) _ p p training_df)
    by (by rewrite lift_run, Hdrop).
  rewrite (bind_Ok (lift (dropna training_df "avg_workload_7d")) _ p p training_df)
    by (by rewrite lift_run, Hagain).
  done.
Qed.
End TrainRows.

(** ** The read-only handlers *)

Lemma idxmax_foldl (b : nat * Z) (s : list (nat * Z)) :
  exists p,
    foldl (fun best p =>
             match best with
             | Some b => if (b.2 <? p.2)%Z then Some p else Some b
             | None => Some p
             end) (Some b) s = Some p /\
    (p = b \/ p ∈ s) /\ (b.2 <= p.2)%Z /\ Forall (fun q => (q.2 <= p.2)%Z) s.
Proof.
  revert b. induction s as [|x s IH]; intros b; simpl.
  - exists b. split_and!; [done|by left|lia|constructor].
  - destruct (Z.ltb_spec b.2 x.2) as [Hlt|Hge].
    + destruct (IH x) as (p & Hp & Hin & Hle & Hall).
      exists p. split_and!; [done| |lia|by constructor].
      right. destruct Hin as [->|Hin]; [left|by right].
    + destruct (IH b) as (p & Hp & Hin & Hle & Hall).
      exists p. split_and!; [done| |done|constructor; [lia|done]].
      destruct Hin as [->|Hin]; [by left|right; by right].
Qed.

Lemma idxmax_spec (s : list (nat * Z)) :
  s <> [] ->
  exists p, idxmax s = Some p.1 /\ p ∈ s /\ Forall (fun q => (q.2 <= p.2)%Z) s.
Proof.
  destruct s as [|b s]; [done|]. intros _. unfold idxmax. simpl.
  destruct (idxmax_foldl b s) as (p & -> & Hin & Hle & Hall).
  exists p. split_and!; [done| |by constructor].
  destruct Hin as [->|Hin]; [left|by right].
Qed.

Lemma filter_label_unique {A} (df : list (nat * A)) (p : nat * A) :
  NoDup df.*1 -> p ∈ df -> filter (fun q => q.1 = p.1) df = [p].
Proof.
  induction df as [|q df IH]; [by intros _ ?%elem_of_nil|].
  rewrite fmap_cons, NoDup_cons. intros [Hnot Hnd] Hin.
  rewrite filter_cons.
  destruct (decide (q.1 = p.1)) as [Hq|Hq].
  - apply elem_of_cons in Hin as [->|Hin].
    + f_equal. apply filter_none, Forall_forall. intros q' Hq' Heq.
      apply Hnot. rewrite <- Heq. by apply list_elem_of_fmap_2.
    + exfalso. apply Hnot. rewrite Hq. by apply list_elem_of_fmap_2.
  - apply elem_of_cons in Hin as [->|Hin]; [done|]. by apply IH.
Qed.

(** The rows that [latest_data] picks for a list of employee ids. *)
Lemma latest_data_keys (df : list (nat * Row)) (ks : list string) :
  NoDup df.*1 ->
  Forall (fun k => k ∈ row_employee <$> df.*2) ks ->
  exists latest,
    loc df (omap (fun g : string * list (nat * Row) =>
                    idxmax ((fun p => (p.1, row_date p.2)) <$> g.2))
                 ((fun k => (k, filter (fun p => row_employee p.2 = k) df)) <$> ks))
    = Ok latest /\
    row_employee <$> latest.*2 = ks /\
    Forall (fun p => p ∈ df /\
              forall q, q ∈ df -> row_employee q.2 = row_employee p.2 ->
                        (row_date q.2 <= row_date p.2)%Z) latest.
Proof.
  intros Hnd. induction 1 as [|k ks Hk _ (latest & Hloc & Hkeys & Hall)].
  { exists []. by split_and!. }
  apply list_elem_of_fmap in Hk as (r0 & -> & Hr0).
  apply list_elem_of_fmap in Hr0 as ([l0 r0'] & -> & Hp0). simpl.
  set (g := filter (fun p => row_employee p.2 = row_employee r0') df).
  assert ((l0, r0') ∈ g) as Hg by (by apply list_elem_of_filter).
  destruct (idxmax_spec ((fun p => (p.1, row_date p.2)) <$> g))
    as ([l d] & Hmax & Hin & Hle).
  { intros Hnil. apply fmap_nil_inv in Hnil. rewrite Hnil in Hg.
    by apply elem_of_nil in Hg. }
  apply list_elem_of_fmap in Hin as (p & [= -> ->] & Hp).
  apply list_elem_of_filter in Hp as Hp'. destruct Hp' as [Hpk Hpdf].
  exists (p :: latest). csimpl. rewrite Hmax. simpl.
  rewrite (filter_label_unique df p) by done. rewrite Hloc.
  split_and!; [done|by rewrite Hkeys, Hpk|].
  constructor; [|done]. split; [done|].
  intros q Hq Hqk. rewrite Forall_fmap in Hle.
  eapply Forall_forall in Hle; [exact Hle|].
  apply list_elem_of_filter. split; [congruence|done].
Qed.

Lemma latest_data_spec (df : list (nat * Row)) :
  NoDup df.*1 ->
  exists latest,
    latest_data df = Ok latest /\
    row_employee <$> latest.*2
    = stable_sort String.leb (remove_dups (row_employee <$> df.*2)) /\
    Forall (fun p => p ∈ df /\
              forall q, q ∈ df -> row_employee q.2 = row_employee p.2 ->
                        (row_date q.2 <= row_date p.2)%Z) latest.
Proof.
  intros Hnd. unfold latest_data, groupby_rows.
  apply latest_data_keys; [done|].
  apply Forall_forall. intros k Hk.
  rewrite stable_sort_perm, elem_of_remove_dups in Hk. exact Hk.
Qed.

(** *** Counting by groups *)

Lemma length_filter_groups {A} (key : A -> string) (ks : list string) (l : list A) :
  NoDup ks -> Forall (fun x => key x ∈ ks) l ->
  sum_list ((fun k => length (filter (fun x => key x = k) l)) <$> ks) = length l.
Proof.
  intros Hnd. induction 1 as [|x l Hx _ IH]; simpl.
  { clear Hnd. induction ks as [|k ks IHk]; [done|]. csimpl. by rewrite IHk. }
  rewrite <- IH. clear IH.
  induction ks as [|k ks IHk]; [by apply elem_of_nil in Hx|].
  apply NoDup_cons in Hnd as [Hk Hnd]. csimpl. rewrite filter_cons.
  destruct (decide (key x = k)) as [He|Hne].
  - simpl. do 3 f_equal. apply list_fmap_ext. intros i k' Hk'.
    rewrite filter_cons_False; [done|].
    intros He'. apply Hk. rewrite <- He, He'. by eapply list_elem_of_lookup_2.
  - apply elem_of_cons in Hx as [?|Hx]; [done|].
    specialize (IHk Hnd Hx). lia.
Qed.

Lemma sum_list_stable_sort (f : string -> nat) (ks : list string) :
  sum_list (f <$> stable_sort String.leb ks) = sum_list (f <$> ks).
Proof.
  assert (forall l l' : list nat, l ≡ₚ l' -> sum_list l = sum_list l') as Hperm.
  { induction 1; simpl; lia. }
  apply Hperm. by rewrite stable_sort_perm.
Qed.

(** The groups of [groupby] count every row once. *)
Lemma groupby_rows_count (key : Row -> string) (P : Row -> Prop)
    `{!forall r, Decision (P r)} (df : list (nat * Row)) :
  sum_list ((fun g : string * list (nat * Row) => length (filter P g.2.*2))
              <$> groupby_rows key df)
  = length (filter P df.*2).
Proof.
  unfold groupby_rows. rewrite <- list_fmap_compose.
  unfold compose. cbn [fst snd].
  rewrite (sum_list_stable_sort
             (fun k => length (filter P (filter (fun p => key p.2 = k) df).*2))).
  rewrite <- (length_filter_groups key (remove_dups (key <$> df.*2))
                (filter P df.*2)).
  - f_equal. apply list_fmap_ext. intros i k _. f_equal.
    rewrite <- (filter_fmap_iff snd (fun r => key r = k)
                  (fun p => key p.2 = k)) by done.
    rewrite !list_filter_filter. apply list_filter_iff. intros r. tauto.
  - apply NoDup_remove_dups.
  - apply Forall_forall. intros r [_ Hr]%list_elem_of_filter.
    apply elem_of_remove_dups. by apply list_elem_of_fmap_2.
Qed.

Lemma string_leb_trans (x y z : string) :
  String.leb x y = true -> String.leb y z = true -> String.leb x z = true.
Proof.
  intros Hxy%Is_true_true Hyz%Is_true_true. apply Is_true_true.
  change (String.le x z). by trans y.
Qed.

Lemma filter_ext_Forall {A} (P Q : A -> Prop) `{!forall x, Decision (P x)}
    `{!forall x, Decision (Q x)} (l : list A) :
  Forall (fun x => P x <-> Q x) l -> filter P l = filter Q l.
Proof.
  induction 1 as [|x l Hx _ IH]; [done|].
  rewrite !filter_cons, IH.
  destruct (decide (P x)), (decide (Q x)); try done; tauto.
Qed.

Lemma length_remove_dups_perm (l l' : list string) :
  l ≡ₚ l' -> length (remove_dups l) = length (remove_dups l').
Proof.
  intros Hperm. apply Permutation_length, NoDup_Permutation;
    [apply NoDup_remove_dups..|].
  intros x. by rewrite !elem_of_remove_dups, Hperm.
Qed.

Lemma burnout_category_High (risk : Q) :
  burnout_category_of risk = "High"%string <-> Qle_bool 0.7 risk = true.
Proof.
  unfold burnout_category_of, np_select.
  destruct (Qle_bool 0.7 risk); [done|].
  by destruct (Qle_bool 0.5 risk).
Qed.

Section HandlerFacts.
Context `{!NumPy}.

Lemma engineer_frame_rows (df : list Raw) :
  (engineer_frame (range_index df)).*2 = engineer_features df.
Proof. done. Qed.

Lemma engineer_frame_labels (df : list Raw) :
  NoDup (engineer_frame (range_index df)).*1.
Proof.
  unfold engineer_frame. rewrite <- list_fmap_compose.
  apply (sorted_frame_labels df).
Qed.

Lemma engineer_features_employees (df : list Raw) :
  row_employee <$> engineer_features df ≡ₚ employee_id <$> df.
Proof.
  destruct (engineer_features_rows df) as (Hperm & _ & _).
  apply (fmap_Permutation employee_id) in Hperm.
  by rewrite <- list_fmap_compose in Hperm.
Qed.

Lemma elem_of_engineer_frame (df : list Raw) (p : nat * Row) :
  p ∈ engineer_frame (range_index df) -> p.2 ∈ engineer_features df.
Proof. intros Hp. rewrite <- engineer_frame_rows. by apply list_elem_of_fmap_2. Qed.

(** X16.  The handlers work on one row per employee: [latest_data] returns
    without an error, lists every employee of the table exactly once, in
    ascending order of the ids, and the row of an employee is a row of the
    table that no other row of this employee is dated after.
    [get_employees] answers with one record for each of these rows, in the
    same order. *)
Theorem latest_row_per_employee (df : list Raw) :
  exists latest views,
    latest_data (engineer_frame (range_index df)) = Ok latest /\
    get_employees (engineer_frame (range_index df)) = Ok views /\
    view_id <$> views = row_employee <$> latest.*2 /\
    NoDup (row_employee <$> latest.*2) /\
    StronglySorted (fun a b => String.leb a b = true)
                   (row_employee <$> latest.*2) /\
    (forall e, e ∈ row_employee <$> latest.*2 <-> e ∈ employee_id <$> df) /\
    Forall (fun r => r ∈ engineer_features df /\
              forall r', r' ∈ engineer_features df ->
                         row_employee r' = row_employee r ->
                         (row_date r' <= row_date r)%Z) latest.*2.
Proof.
  destruct (latest_data_spec _ (engineer_frame_labels df))
    as (latest & Hlatest & Hkeys & Hall).
  rewrite engineer_frame_rows in Hkeys.
  exists latest. eexists. split; [done|].
  unfold get_employees. rewrite Hlatest. simpl. split; [done|].
  rewrite <- list_fmap_compose. split; [done|]. rewrite Hkeys. split_and!.
  - rewrite stable_sort_perm. apply NoDup_remove_dups.
  - apply stable_sort_sorted; [apply String.leb_total|apply string_leb_trans].
  - intros e. rewrite stable_sort_perm, elem_of_remove_dups.
    by rewrite engineer_features_employees.
  - rewrite Forall_fmap. eapply Forall_impl; [exact Hall|].
    intros p [Hp Hmax]. simpl. split; [by apply elem_of_engineer_frame|].
    intros r' Hr' He. rewrite <- engineer_frame_rows in Hr'.
    apply list_elem_of_fmap in Hr' as (q & -> & Hq). by apply Hmax.
Qed.

(** X17.  The summary and the department breakdown agree: the employees
    counted by department add up to [total_employees], which is the number
    of distinct employee ids of the table, and the employees that the
    departments count as High by category add up to [high_risk_count],
    which counts by the threshold 0.7 on the risk index. *)
Theorem summary_matches_departments (df : list Raw) :
  exists summary departments,
    get_summary (engineer_frame (range_index df)) = Ok summary /\
    get_departments (engineer_frame (range_index df)) = Ok departments /\
    total_employees summary = length (remove_dups (employee_id <$> df)) /\
    sum_list (dept_employees <$> departments) = total_employees summary /\
    sum_list (dept_high_risk <$> departments) = high_risk_count summary.
Proof.
  destruct (latest_data_spec _ (engineer_frame_labels df))
    as (latest & Hlatest & Hkeys & Hall).
  rewrite engineer_frame_rows in Hkeys.
  do 2 eexists. unfold get_summary, get_departments. rewrite Hlatest. simpl.
  split; [done|]. split; [done|]. split_and!.
  - assert (length latest = length (row_employee <$> latest.*2)) as ->
      by (by rewrite !length_fmap).
    rewrite Hkeys.
    assert (length (stable_sort String.leb
                      (remove_dups (row_employee <$> engineer_features df)))
            = length (remove_dups (row_employee <$> engineer_features df))) as ->
      by (by rewrite stable_sort_perm).
    apply length_remove_dups_perm, engineer_features_employees.
  - rewrite <- list_fmap_compose. unfold compose. cbn [dept_employees total_employees].
    pose proof (groupby_rows_count (fun r => department (raw (base r)))
                  (fun _ => True) latest) as Hcount.
    rewrite (filter_all (fun _ : Row => True) latest.*2), length_fmap in Hcount
      by (by apply Forall_forall).
    rewrite <- Hcount. f_equal. apply list_fmap_ext. intros i g _.
    rewrite filter_all by (by apply Forall_forall). by rewrite length_fmap.
  - rewrite <- list_fmap_compose. unfold compose. cbn [dept_high_risk].
    rewrite (groupby_rows_count (fun r => department (raw (base r)))
               (fun r => burnout_category r = "High"%string) latest).
    cbn [high_risk_count]. f_equal. apply filter_ext_Forall.
    rewrite Forall_fmap. eapply Forall_impl; [exact Hall|].
    intros p [Hp _]. simpl.
    apply elem_of_engineer_frame in Hp.
    apply engineer_features_row in Hp as (x & aw & al & sv & _ & ->).
    simpl. apply burnout_category_High.
Qed.

End HandlerFacts.

(** ** The properties above on the samples *)

Lemma rolling_columns_defined_witness :
  extreme_day ∈ @engineer_features approx_sqrt sample_table /\
  exists aw al sv,
    avg_workload_7d extreme_day = Some aw /\
    avg_wellness_7d extreme_day = Some al /\
    sleep_variance_7d extreme_day = Some sv.
Proof.
  split; [exact extreme_day_in_table|].
  destruct (@rolling_columns_defined approx_sqrt sample_table extreme_day
              extreme_day_in_table) as (aw & al & sv & H1 & H2 & H3 & _).
  by exists aw, al, sv.
Defined.




Lemma generated_run_Ok : generated_run = (generated_run.1, Ok generated_table).
Proof. vm_compute. reflexivity. Defined.

Lemma generated_day_in_table : generated_day ∈ generated_table.
Proof. apply (list_elem_of_lookup_2 _ 0). vm_compute. reflexivity. Defined.

Lemma generate_weekdays_only_witness :
  generated_run = (generated_run.1, Ok generated_table) /\
  generated_day ∈ generated_table /\
  (weekday (row_date generated_day) < 5)%Z.
Proof.
  split; [exact generated_run_Ok|]. split; [exact generated_day_in_table|].
  apply (@generate_weekdays_only approx_sqrt mean_rng 2 7 738888 0%nat
           generated_run.1 generated_table generated_day
           generated_run_Ok generated_day_in_table).
Defined.


Lemma generate_rows_per_employee_witness :
  generated_run = (generated_run.1, Ok generated_table) /\
  length generated_table = (2 * length (weekdays (738888 - 7) 7))%nat.
Proof.
  split; [exact generated_run_Ok|].
  apply (@generate_rows_per_employee approx_sqrt mean_rng 2 7 738888 0%nat
           generated_run.1 generated_table generated_run_Ok).
Defined.

Lemma predict_columns_witness :
  let h : gmap nat (list (string * list Value)) := {[ 0%nat := sample_frame ]} in
  let out := @predict stub_sklearn sample_predictor 0%nat h in
  out = (out.1, Ok 0%nat) /\
  exists df' categories,
    out.1 !! 0%nat = Some df' /\
    find_column df' "prediction_category" = Some categories.
Proof.
  intros h out.
  assert (out = (out.1, Ok 0%nat)) as Hout by (vm_compute; reflexivity).
  split; [exact Hout|].
  destruct (@predict_columns stub_sklearn sample_predictor 0%nat 0%nat h out.1 Hout)
    as (df & df' & X & sc & Xs & rf & preds & proba & enc & cats & col
        & _ & Hdf' & _ & _ & _ & _ & _ & _ & _ & _ & Hcats & _).
  by exists df', cats.
Defined.


Lemma predict_twice_witness :
  let h : gmap nat (list (string * list Value)) := {[ 0%nat := sample_frame ]} in
  let out := @predict stub_sklearn sample_predictor 0%nat h in
  out = (out.1, Ok 0%nat) /\
  @predict stub_sklearn sample_predictor 0%nat out.1 = (out.1, Ok 0%nat).
Proof.
  intros h out.
  assert (out = (out.1, Ok 0%nat)) as Hout by (vm_compute; reflexivity).
  split; [exact Hout|].
  apply (@predict_twice stub_sklearn sample_predictor 0%nat 0%nat h out.1).
  - apply (bool_decide_unpack _). vm_compute. exact I.
  - apply (bool_decide_unpack _). vm_compute. exact I.
  - exact Hout.
Defined.


Lemma train_ignores_nan_rows_witness :
  dropna gappy_frame "avg_workload_7d" = Ok dense_frame /\
  @train stub_sklearn dense_frame init = @train stub_sklearn gappy_frame init.
Proof.
  assert (dropna gappy_frame "avg_workload_7d" = Ok dense_frame) as Hdrop
    by (vm_compute; reflexivity).
  split; [exact Hdrop|].
  exact (@train_ignores_nan_rows stub_sklearn gappy_frame dense_frame init Hdrop).
Defined.
